(** * seenunseen.in book scraper: a shallow embedding of [scraper.py]

    The development follows the class [SeenUnseenScraper]:
    - the two URL patterns and Python's [re.match] on them,
    - [__is_episode_url], [__is_target_url], [__get_episode_info],
    - the page fetcher [__get_page_soup] and the logger [__write_log],
    - the collection loop [__get_books_as_dataframe] and [get_books].

    Strings are [String.string]; a parsed page is the list of its anchors, each
    with its attribute dictionary (a [gmap]) and its children; the set of
    episode URLs is a [gset]; effects (network, log file, sleeping,
    exceptions) are threaded through a small state-and-exception monad. *)

From Stdlib Require Import ZArith Ascii String List Lia Bool DecimalString.
From stdpp Require Import base option list gmap strings.

Local Open Scope string_scope.
Local Open Scope Z_scope.

(** ** Characters and strings *)

Definition chars (s : string) : list ascii := list_ascii_of_string s.

Definition code (c : ascii) : N := N_of_ascii c.

Definition newline : ascii := "010"%char.

(** Membership of a character in the inclusive range [lo-hi] of a class. *)
Definition in_range (lo hi c : ascii) : bool :=
  ((code lo <=? code c) && (code c <=? code hi))%N.

(** ** Regular expressions: the fragment of Python's [re] the patterns use *)

Module Re.

Inductive regex : Type :=
| Empty
| Lit (c : ascii)
| Dot
| Class (ranges : list (ascii * ascii))
| Cat (r1 r2 : regex)
| Opt (r : regex)
| Star (r : regex)
| Plus (r : regex)
| Group (i : nat) (r : regex).

(** *** Reading a pattern string *)

(** Body of a bracket class up to the closing bracket: single characters and
    [a-z] ranges. *)
Fixpoint parse_class (s : list ascii) (acc : list (ascii * ascii))
  : option (list (ascii * ascii) * list ascii) :=
  match s with
  | [] => None
  | c :: rest =>
      if Ascii.eqb c "]" then Some (acc, rest)
      else
        match rest with
        | "-"%char :: hi :: rest' =>
            if Ascii.eqb hi "]" then parse_class rest (acc ++ [(c, c)])
            else parse_class rest' (acc ++ [(c, hi)])
        | _ => parse_class rest (acc ++ [(c, c)])
        end
  end.

(** Postfix quantifier, if any, applied to the atom just read. *)
Definition quantified (atom : regex) (s : list ascii) : regex * list ascii :=
  match s with
  | "?"%char :: rest => (Opt atom, rest)
  | "*"%char :: rest => (Star atom, rest)
  | "+"%char :: rest => (Plus atom, rest)
  | _ => (atom, s)
  end.

(** Characters with a meaning this fragment does not implement. *)
Definition unsupported (c : ascii) : bool :=
  existsb (Ascii.eqb c) (chars "\|{}^$*+?]").

(** A sequence of quantified atoms, up to the end of the pattern or to the
    closing parenthesis of the group being read; [next] is the number of the
    next capturing group, numbered by opening parenthesis. *)
Fixpoint parse_seq (fuel : nat) (s : list ascii) (next : nat)
  : option (regex * list ascii * nat) :=
  match fuel with
  | O => None
  | S fuel' =>
      match s with
      | [] => Some (Empty, [], next)
      | ")"%char :: _ => Some (Empty, s, next)
      | c :: rest =>
          let atom :=
            if Ascii.eqb c "(" then
              match parse_seq fuel' rest (S next) with
              | Some (r, ")"%char :: rest', next') => Some (Group next r, rest', next')
              | _ => None
              end
            else if Ascii.eqb c "[" then
              match parse_class rest [] with
              | Some (rs, rest') => Some (Class rs, rest', next)
              | None => None
              end
            else if Ascii.eqb c "." then Some (Dot, rest, next)
            else if unsupported c then None
            else Some (Lit c, rest, next) in
          match atom with
          | None => None
          | Some (a, rest', next') =>
              let (qa, rest'') := quantified a rest' in
              match parse_seq fuel' rest'' next' with
              | Some (Empty, rest3, next3) => Some (qa, rest3, next3)
              | Some (r, rest3, next3) => Some (Cat qa r, rest3, next3)
              | None => None
              end
          end
      end
  end.

(** [re.compile]: the whole pattern must be consumed. *)
Definition compile (pattern : string) : option regex :=
  match parse_seq (S (String.length pattern)) (chars pattern) 1 with
  | Some (r, [], _) => Some r
  | _ => None
  end.

(** *** Matching *)

(** Membership of a character in a bracket class. *)
Definition class_mem (ranges : list (ascii * ascii)) (x : ascii) : bool :=
  existsb (fun lh => in_range (fst lh) (snd lh) x) ranges.

(** Captured groups: number and captured text, most recent binding first. *)
Definition captures := list (nat * list ascii).

Definition cont := list ascii -> captures -> option captures.

(** Greedy repetition of [step], at most [fuel] times, each round having to
    consume input; on failure of the longer attempt the shorter one is tried. *)
Fixpoint repeat_greedy (step : cont -> cont) (k : cont) (fuel : nat) : cont :=
  fun s g =>
    match fuel with
    | O => k s g
    | S fuel' =>
        match step (fun s' g' =>
                      if (length s' <? length s)%nat
                      then repeat_greedy step k fuel' s' g' else None) s g with
        | Some m => Some m
        | None => k s g
        end
    end.

(** The backtracking matcher, in continuation-passing style: [run r k s g]
    matches [r] at the head of [s] and hands the rest of the input to [k]. *)
Fixpoint run (r : regex) (k : cont) : cont :=
  fun s g =>
    match r with
    | Empty => k s g
    | Lit c =>
        match s with
        | x :: s' => if Ascii.eqb x c then k s' g else None
        | [] => None
        end
    | Dot =>
        match s with
        | x :: s' => if Ascii.eqb x newline then None else k s' g
        | [] => None
        end
    | Class ranges =>
        match s with
        | x :: s' =>
            if class_mem ranges x then k s' g else None
        | [] => None
        end
    | Cat r1 r2 => run r1 (run r2 k) s g
    | Opt r1 =>
        match run r1 k s g with
        | Some m => Some m
        | None => k s g
        end
    | Star r1 => repeat_greedy (run r1) k (length s) s g
    | Plus r1 =>
        run r1 (fun s' g' => repeat_greedy (run r1) k (length s') s' g') s g
    | Group i r1 =>
        run r1 (fun s' g' => k s' ((i, take (length s - length s') s) :: g')) s g
    end.

(** A match object: the captured groups. *)
Record match_obj := { captured : captures }.

(** [m.group(i)] for a group that took part in the match. *)
Definition group (m : match_obj) (i : nat) : string :=
  match find (fun p => Nat.eqb (fst p) i) (captured m) with
  | Some p => string_of_list_ascii (snd p)
  | None => EmptyString
  end.

(** [re.match(pattern, s)]: a match anchored at the start of [s], the end of
    the match being anywhere in [s]. *)
Definition exec (r : regex) (s : string) : option match_obj :=
  match run r (fun _ g => Some g) (chars s) [] with
  | Some g => Some {| captured := g |}
  | None => None
  end.

End Re.

(** ** The scraper's patterns and classifiers *)

Definition base_url : string := "https://seenunseen.in/episodes/".

Definition ep_url_pattern : string :=
  "https?://seenunseen.in/episodes/([0-9]+)/([0-9]+)/([0-9]+)/episode-([0-9]+)-.+".

Definition target_url_pattern : string := "https?://[w.]*amazon.[a-z]+".

(** [re.match(pattern, s)] on a pattern given as text; a pattern outside the
    implemented fragment matches nothing. *)
Definition re_match (pattern s : string) : option Re.match_obj :=
  match Re.compile pattern with
  | Some r => Re.exec r s
  | None => None
  end.

Definition is_episode_url (url : string) : bool :=
  match re_match ep_url_pattern url with
  | Some _ => true
  | None => false
  end.

Definition is_target_url (url : string) : bool :=
  match re_match target_url_pattern url with
  | Some _ => true
  | None => false
  end.

(** ** Exceptions and results *)

Inductive exn : Type :=
| RequestException (detail : string)
| AttributeError (detail : string)
| KeyError (key : string)
| IndexError
| TypeError
| ValueError
| OverflowError
| OtherException (name : string).

(** What a call does: it returns a value or raises. *)
Inductive outcome (A : Type) : Type :=
| Return (a : A)
| Raise (e : exn).

Arguments Return {A} a.
Arguments Raise {A} e.

Definition returns {A : Type} (o : outcome A) : bool :=
  match o with Return _ => true | Raise _ => false end.

(** ** [int] on the text of a group, and [datetime.datetime] *)

Definition digit_value (c : ascii) : Z := Z.of_N (code c) - 48.

(** The value of a run of ASCII digits, read in base ten. *)
Definition decimal (text : string) : Z :=
  fold_left (fun acc c => 10 * acc + digit_value c) (chars text) 0.

(** The interpreter's default limit on the length of a numeral it converts
    ([sys.int_info.default_max_str_digits]). *)
Definition int_max_str_digits : nat := 4300.

(** [int(text)] for a non-empty run of ASCII digits (what every group of the
    episode pattern captures): its decimal value, of unbounded size, unless
    the run has more than 4300 digits, leading zeros included, which [int]
    refuses with [ValueError]. *)
Definition int (text : string) : outcome Z :=
  if (int_max_str_digits <? String.length text)%nat then Raise ValueError
  else Return (decimal text).

(** Sequencing of calls that may raise. *)
Definition and_then {A B : Type} (o : outcome A) (f : A -> outcome B) : outcome B :=
  match o with
  | Return a => f a
  | Raise e => Raise e
  end.

Record datetime : Type := {
  dt_year : Z; dt_month : Z; dt_day : Z;
  dt_hour : Z; dt_minute : Z; dt_second : Z
}.

Definition is_leap (y : Z) : bool :=
  (y mod 4 =? 0) && (negb (y mod 100 =? 0) || (y mod 400 =? 0)).

Definition days_in_month (y m : Z) : Z :=
  if m =? 2 then (if is_leap y then 29 else 28)
  else if existsb (Z.eqb m) [4; 6; 9; 11] then 30
  else 31.

Definition valid_date (y m d : Z) : bool :=
  (1 <=? y) && (y <=? 9999) && (1 <=? m) && (m <=? 12)
  && (1 <=? d) && (d <=? days_in_month y m).

(** A value that fits a C [int]. *)
Definition fits_c_int (z : Z) : bool := (- 2 ^ 31 <=? z) && (z <? 2 ^ 31).

(** [dt.datetime(year=y, month=m, day=d)]: the constructor first converts its
    arguments to C integers, raising [OverflowError] on one that does not
    fit, then checks the fields and raises [ValueError] on a date that does
    not exist. *)
Definition mk_datetime (y m d : Z) : outcome datetime :=
  if negb (fits_c_int y && fits_c_int m && fits_c_int d) then Raise OverflowError
  else if valid_date y m d
  then Return {| dt_year := y; dt_month := m; dt_day := d;
                 dt_hour := 0; dt_minute := 0; dt_second := 0 |}
  else Raise ValueError.

(** [__get_episode_info] *)
Definition get_episode_info (ep_url : string) : outcome (option (Z * datetime)) :=
  match re_match ep_url_pattern ep_url with
  | None => Return None
  | Some result =>
      and_then (int (Re.group result 1)) (fun year =>
      and_then (int (Re.group result 2)) (fun month =>
      and_then (int (Re.group result 3)) (fun day =>
      and_then (mk_datetime year month day) (fun ep_date =>
      and_then (int (Re.group result 4)) (fun ep_num =>
      Return (Some (ep_num, ep_date)))))))
  end.

(** ** Parsed pages *)

(** An anchor element: its attribute dictionary and its children, each child
    as the text the [Book] column stores for it. *)
Record anchor : Type := {
  attrs : gmap string string;
  contents : list string
}.

(** A parsed page, as far as the scraper looks at it: [findAll('a')], in
    document order. *)
Definition document : Type := list anchor.

(** [a['href']] *)
Definition href (a : anchor) : outcome string :=
  match attrs a !! "href" with
  | Some h => Return h
  | None => Raise (KeyError "href")
  end.

(** [[a['href'] for a in page.findAll('a') if self.__is_episode_url(a['href'])]] *)
Fixpoint episode_hrefs (page : document) : outcome (list string) :=
  match page with
  | [] => Return []
  | a :: rest =>
      match href a with
      | Raise e => Raise e
      | Return h =>
          if is_episode_url h then
            match episode_hrefs rest with
            | Return hs => Return (h :: hs)
            | Raise e => Raise e
            end
          else episode_hrefs rest
      end
  end.

(** [[a.contents[0] for a in page.findAll('a') if self.__is_target_url(a['href'])]] *)
Fixpoint target_texts (page : document) : outcome (list string) :=
  match page with
  | [] => Return []
  | a :: rest =>
      match href a with
      | Raise e => Raise e
      | Return h =>
          if is_target_url h then
            match contents a with
            | [] => Raise IndexError
            | text :: _ =>
                match target_texts rest with
                | Return ts => Return (text :: ts)
                | Raise e => Raise e
                end
            end
          else target_texts rest
      end
  end.

(** ** Tables *)

(** Rows of a data frame with the columns [Episode] and [Book]. *)
Definition frame : Type := list (Z * string).

(** The frame of one episode; the [Episode] column has [dtype=int], a signed
    64-bit integer, which a larger episode number overflows. *)
Definition episode_frame (ep_num : Z) (amazon_books : list string) : outcome frame :=
  if ep_num <? 2 ^ 63
  then Return (map (fun book => (ep_num, book)) amazon_books)
  else Raise OverflowError.

(** [pd.concat(df_list, ignore_index=True)] *)
Definition pd_concat (df_list : list frame) : frame := concat df_list.

(** ** The world and the scraper's state *)

(** The answer of [requests.get]: a response (whatever its status code) with
    its body parsed, or an exception. *)
Inductive reply : Type :=
| Response (status : nat) (body : document)
| Failure (e : exn).

(** What the program does not decide: the remote site, the wall clock (the
    formatted time of the log line written after [n] earlier events) and the
    order in which a set of strings is iterated. *)
Record world : Type := {
  http_get : string -> reply;
  now : nat -> string;
  set_iter : gset string -> list string
}.

(** Iterating a set enumerates each of its elements once, in some order. *)
Definition iterates_sets (w : world) : Prop :=
  forall X : gset string, set_iter w X ≡ₚ elements X.

Inductive event : Type :=
| Opened (path : string)
| Wrote (path : string) (text : string)
| Closed (path : string)
| Requested (url : string)
| Slept (seconds : Z).

(** The mutable field [self.log_file] (an open file, named by its path) and
    the effects performed so far, oldest first. *)
Record state : Type := {
  log_file : option string;
  trace : list event
}.

Definition emit (e : event) (s : state) : state :=
  {| log_file := log_file s; trace := trace s ++ [e] |}.

(** The constructor's fields, which no method reassigns. *)
Record scraper : Type := {
  base_url_year : string;
  req_delay_second : option Z;
  log_filepath : option string
}.

(** ** The state-and-exception monad *)

Definition M (A : Type) : Type := state -> outcome A * state.

Definition ret {A : Type} (a : A) : M A := fun s => (Return a, s).

Definition raise {A : Type} (e : exn) : M A := fun s => (Raise e, s).

Definition bind {A B : Type} (m : M A) (f : A -> M B) : M B :=
  fun s =>
    match m s with
    | (Return a, s') => f a s'
    | (Raise e, s') => (Raise e, s')
    end.

(** A pure computation that may raise, run inside [M]. *)
Definition lift {A : Type} (o : outcome A) : M A := fun s => (o, s).

(** [try: body finally: cleanup]: the cleanup runs on every way out of the
    body, whose result or exception is then passed on. *)
Definition try_finally {A : Type} (body : M A) (cleanup : state -> state) : M A :=
  fun s => let (r, s') := body s in (r, cleanup s').

Declare Scope monad_scope.
Delimit Scope monad_scope with monad.
Notation "x <- m ;; k" := (bind m (fun x => k))
  (at level 20, m at level 99, k at level 200, only parsing) : monad_scope.
Notation "m ;; k" := (bind m (fun _ => k))
  (at level 100, k at level 200, only parsing, right associativity) : monad_scope.
Local Open Scope monad_scope.

(** ** The scraper *)

Definition str (n : Z) : string := DecimalString.NilZero.string_of_int (Z.to_int n).

(** [__init__] *)
Definition init (year : Z) (req_delay_seconds : option Z) (log_filepath : option string)
  : scraper :=
  {| base_url_year := base_url ++ str year ++ "/";
     req_delay_second := req_delay_seconds;
     log_filepath := log_filepath |}.

(** One line of the log file. *)
Definition log_line (timestamp_str msg : string) : string :=
  "[ " ++ timestamp_str ++ " ] : " ++ msg ++ String newline EmptyString.

(** [__write_log] *)
Definition write_log (w : world) (msg : string) : M unit :=
  fun s =>
    match log_file s with
    | Some f =>
        let timestamp_str := now w (length (trace s)) in
        (Return tt, emit (Wrote f (log_line timestamp_str msg)) s)
    | None => (Return tt, s)
    end.

(** [req.get(url)] *)
Definition requests_get (w : world) (url : string) : M reply :=
  fun s => (Return (http_get w url), emit (Requested url) s).

(** [__get_page_soup]; the message of the [except] branch is the plain string
    literal of the source. *)
Definition get_page_soup (w : world) (url : string) : M (option document) :=
  result <- requests_get w url ;;
  match result with
  | Failure (RequestException exp) =>
      write_log w "Failed getting URL : {url} ; Error : {exp}" ;;
      ret None
  | Failure e => raise e
  | Response _ body => ret (Some body)
  end.

(** The longest time, in seconds, whose count of nanoseconds fits a signed
    64-bit integer. *)
Definition sleep_max : Z := 9223372036.

(** [time.sleep(seconds)] on an integer: the conversion to nanoseconds comes
    first and raises [OverflowError] beyond [sleep_max] in either sign; a
    negative length that converts is refused with [ValueError]. *)
Definition time_sleep (seconds : Z) : M unit :=
  fun s =>
    if (seconds <? - sleep_max) || (sleep_max <? seconds) then (Raise OverflowError, s)
    else if seconds <? 0 then (Raise ValueError, s)
    else (Return tt, emit (Slept seconds) s).

(** [if self.req_delay_second: time.sleep(self.req_delay_second)] *)
Definition delay (self : scraper) : M unit :=
  match req_delay_second self with
  | Some seconds => if seconds =? 0 then ret tt else time_sleep seconds
  | None => ret tt
  end.

(** The loop body after the delay (lines 135-150): fetch one episode page and
    append its frame, if any, to [df_list]. *)
Definition scrape_episode (w : world) (ep_url : string) (df_list : list frame)
  : M (list frame) :=
  ep_page <- get_page_soup w ep_url ;;
  match ep_page with
  | None => ret df_list
  | Some page =>
      write_log w ("Episode fetched : " ++ ep_url) ;;
      amazon_books <- lift (target_texts page) ;;
      if (length amazon_books =? 0)%nat then ret df_list
      else
        ep_info <- lift (get_episode_info ep_url) ;;
        match ep_info with
        | None => raise TypeError
        | Some (ep_num, _) =>
            df_ep_books <- lift (episode_frame ep_num amazon_books) ;;
            ret (df_list ++ [df_ep_books])%list
        end
  end.

(** [for ep_url in ep_urls: ...] *)
Fixpoint for_each_episode (w : world) (self : scraper) (ep_urls : list string)
    (df_list : list frame) : M (list frame) :=
  match ep_urls with
  | [] => ret df_list
  | ep_url :: rest =>
      df_list' <- (delay self ;; scrape_episode w ep_url df_list) ;;
      for_each_episode w self rest df_list'
  end.

(** The error of [base_page.findAll] when [base_page] is [None]. *)
Definition no_findAll : exn := AttributeError "'NoneType' object has no attribute 'findAll'".

(** The part of [__get_books_as_dataframe] that follows the log line, from the
    enumeration of the episode URLs to the result (lines 124-156); when
    [base_page] is [None], [base_page.findAll] is an attribute error. *)
Definition collect_books (w : world) (self : scraper) (base_page : option document)
  : M (option frame) :=
  match base_page with
  | None => raise no_findAll
  | Some page =>
      hrefs <- lift (episode_hrefs page) ;;
      let ep_urls := set_iter w (list_to_set hrefs) in
      df_list <- for_each_episode w self ep_urls [] ;;
      if (length df_list =? 0)%nat then ret None
      else ret (Some (pd_concat df_list))
  end.

Arguments collect_books : simpl never.

(** [__get_books_as_dataframe] *)
Definition get_books_as_dataframe (w : world) (self : scraper) : M (option frame) :=
  base_page <- get_page_soup w (base_url_year self) ;;
  write_log w "Base page fetched" ;;
  collect_books w self base_page.

(** Truth value of [self.log_filepath]: [None] and the empty string are false. *)
Definition truthy_path (p : option string) : option string :=
  match p with
  | Some path => if String.eqb path EmptyString then None else Some path
  | None => None
  end.

(** [self.log_file = open(self.log_filepath, 'a') if self.log_filepath else None]
    when the file opens ([get_books_call] below covers an [open] that
    raises); writing to and closing the log file are taken to succeed. *)
Definition open_log (self : scraper) : M unit :=
  fun s =>
    match truthy_path (log_filepath self) with
    | Some path => (Return tt, {| log_file := Some path; trace := trace s ++ [Opened path] |})
    | None => (Return tt, {| log_file := None; trace := trace s |})
    end.

(** The [finally] block of [get_books]. *)
Definition close_log (s : state) : state :=
  match log_file s with
  | Some f => {| log_file := None; trace := trace s ++ [Closed f] |}
  | None => s
  end.

(** [get_books] from the assignment of [self.log_file] on, the log file, if
    any, having opened: the [try] statement with its [finally] block. *)
Definition get_books (w : world) (self : scraper) : M (option frame) :=
  open_log self ;;
  try_finally (get_books_as_dataframe w self) close_log.

(** [open(path, 'a')]: [fs] tells which paths the file system refuses - a
    missing directory, a directory, a file without write permission - and
    with which exception. *)
Definition builtin_open (fs : string -> option exn) (path : string) : outcome string :=
  match fs path with
  | Some e => Raise e
  | None => Return path
  end.

(** [get_books] as a whole.  The [open] of line 174 stands before the [try]:
    when it raises, the exception leaves the method at once, the assignment
    to [self.log_file] is not made and the [finally] block is not entered. *)
Definition get_books_call (fs : string -> option exn) (w : world) (self : scraper)
  : M (option frame) :=
  fun s =>
    match truthy_path (log_filepath self) with
    | Some path =>
        match builtin_open fs path with
        | Raise e => (Raise e, s)
        | Return _ => get_books w self s
        end
    | None => get_books w self s
    end.

(** ** Vocabulary of the statements *)

(** The three character classes of the patterns. *)
Definition is_digit (c : ascii) : bool := Re.class_mem [("0", "9")]%char c.
Definition is_lower (c : ascii) : bool := Re.class_mem [("a", "z")]%char c.
Definition is_w_or_dot (c : ascii) : bool := Re.class_mem [("w", "w"); (".", ".")]%char c.

Definition all_of (p : ascii -> bool) (s : string) : bool := forallb p (chars s).

(** A non-empty run of ASCII digits. *)
Definition numeral (s : string) : bool := negb (String.eqb s EmptyString) && all_of is_digit s.

Definition is_scheme (s : string) : bool := String.eqb s "http" || String.eqb s "https".

(** Text on which the pattern's final [.+] succeeds: it begins with a
    character other than a newline. *)
Definition slug_ok (s : string) : bool :=
  match s with
  | String c _ => negb (Ascii.eqb c newline)
  | EmptyString => false
  end.

(** The URL built from the components of the episode template; [sep] is the
    character between [seenunseen] and [in]. *)
Definition episode_url (scheme : string) (sep : ascii) (Y M D N slug : string) : string :=
  scheme ++ "://seenunseen" ++ String sep "in/episodes/" ++ Y ++ "/" ++ M ++ "/" ++ D
         ++ "/episode-" ++ N ++ "-" ++ slug.

(** The URL built from the components of the retailer template; [sep] is the
    character between [amazon] and the top-level domain, which begins with
    [l]. *)
Definition target_url (scheme sub : string) (sep l : ascii) (rest : string) : string :=
  scheme ++ "://" ++ sub ++ "amazon" ++ String sep (String l rest).

(** [date(Y, M, D)], for a date that exists. *)
Definition date (y m d : Z) : datetime :=
  {| dt_year := y; dt_month := m; dt_day := d;
     dt_hour := 0; dt_minute := 0; dt_second := 0 |}.

(** Longest prefix of characters satisfying [p], and what follows it. *)
Fixpoint take_while (p : ascii -> bool) (s : list ascii) : list ascii :=
  match s with
  | x :: s' => if p x then x :: take_while p s' else []
  | [] => []
  end.

Fixpoint skip_while (p : ascii -> bool) (s : list ascii) : list ascii :=
  match s with
  | x :: s' => if p x then skip_while p s' else s
  | [] => []
  end.

(** [s] without its prefix [l], when it has that prefix. *)
Fixpoint strip_prefix (l s : list ascii) : option (list ascii) :=
  match l with
  | [] => Some s
  | c :: l' =>
      match s with
      | x :: s' => if Ascii.eqb x c then strip_prefix l' s' else None
      | [] => None
      end
  end.

(** The characters of [l] as literals, followed by [r]. *)
Definition lit_seq (l : string) (r : Re.regex) : Re.regex :=
  foldr (fun c r' => Re.Cat (Re.Lit c) r') r (chars l).

(** A continuation that fails on every input beginning with a character of
    [p]. *)
Definition rejects (p : ascii -> bool) (k : Re.cont) : Prop :=
  forall x s g, p x = true -> k (x :: s) g = None.

(** [needle in hay], on strings. *)
Fixpoint contains (needle hay : string) : bool :=
  String.prefix needle hay ||
  match hay with
  | String _ hay' => contains needle hay'
  | EmptyString => false
  end.

(** The files opened, and the files closed, oldest first. *)
Definition opened (events : list event) : list string :=
  omap (fun e => match e with Opened p => Some p | _ => None end) events.

Definition closed (events : list event) : list string :=
  omap (fun e => match e with Closed p => Some p | _ => None end) events.

(** A computation that leaves [self.log_file] as it is and neither opens nor
    closes a file. *)
Definition quiet {A : Type} (m : M A) : Prop :=
  forall s,
    log_file (snd (m s)) = log_file s /\
    exists events,
      trace (snd (m s)) = (trace s ++ events)%list /\
      opened events = [] /\ closed events = [].

(** The page of an episode holds at least one retailer link with a text: the
    episode produces rows. *)
Definition produces_rows (w : world) (ep_url : string) : bool :=
  match http_get w ep_url with
  | Response _ page =>
      match target_texts page with
      | Return (_ :: _) => true
      | _ => false
      end
  | Failure _ => false
  end.

(** Every anchor of the page carries an [href]. *)
Definition all_href (page : document) : Prop :=
  forall a, a ∈ page -> is_Some (attrs a !! "href").

(** No anchor of the page has an [href] satisfying [test]. *)
Definition no_href_satisfies (test : string -> bool) (page : document) : Prop :=
  forall a h, a ∈ page -> attrs a !! "href" = Some h -> test h = false.

(** An anchor whose [href] satisfies [test]. *)
Definition href_satisfies (test : string -> bool) (a : anchor) : bool :=
  match attrs a !! "href"%string with
  | Some h => test h
  | None => false
  end.

(** The rows an episode adds to the table: one row per retailer link of its
    page, in document order, each with the episode number of the URL and the
    first child of the link; no row when the page could not be fetched or
    evaluated. *)
Definition episode_table (w : world) (ep_url : string) : frame :=
  match http_get w ep_url with
  | Response _ page =>
      match target_texts page, get_episode_info ep_url with
      | Return amazon_books, Return (Some (ep_num, _)) =>
          match episode_frame ep_num amazon_books with
          | Return df_ep_books => df_ep_books
          | Raise _ => []
          end
      | _, _ => []
      end
  | Failure _ => []
  end.

(** The URLs requested and the pauses made, oldest first. *)
Definition requested (events : list event) : list string :=
  omap (fun e => match e with Requested u => Some u | _ => None end) events.

Definition slept (events : list event) : list Z :=
  omap (fun e => match e with Slept d => Some d | _ => None end) events.

Definition wrote (events : list event) : list (string * string) :=
  omap (fun e => match e with Wrote p text => Some (p, text) | _ => None end) events.

(** The pause made before an episode is fetched: none when no delay or a
    zero delay is configured (and none made when [time.sleep] refuses the
    delay). *)
Definition pause_of (self : scraper) : list Z :=
  match req_delay_second self with
  | Some seconds =>
      if (seconds =? 0) || (seconds <? 0) || (sleep_max <? seconds) then [] else [seconds]
  | None => []
  end.

(** A delay that [time.sleep] refuses. *)
Definition refused_delay (self : scraper) : bool :=
  match req_delay_second self with
  | Some seconds => (seconds <? 0) || (sleep_max <? seconds)
  | None => false
  end.

(** The log file of [self], if any, opens. *)
Definition log_opens (fs : string -> option exn) (self : scraper) : Prop :=
  forall path, truthy_path (log_filepath self) = Some path -> fs path = None.

(** A numeral too long for [int]. *)
Definition too_long (s : string) : bool := (int_max_str_digits <? String.length s)%nat.

(** The longest numeral [int] converts. *)
Definition short_numeral (s : string) : bool :=
  numeral s && (String.length s <=? int_max_str_digits)%nat.

(** The three messages of the log. *)
Definition log_message (msg : string) : Prop :=
  msg = "Base page fetched"%string \/
  msg = "Failed getting URL : {url} ; Error : {exp}"%string \/
  exists ep_url, is_episode_url ep_url = true /\ msg = ("Episode fetched : " ++ ep_url)%string.

(** An effect made between the opening and the closing of the log file [h]
    (no file, when [h] is [None]): a request, a pause, or a line of the log,
    written to [h] and holding a timestamp and one of the three messages. *)
Definition inner_event (h : option string) (e : event) : Prop :=
  match e with
  | Requested _ | Slept _ => True
  | Wrote p text =>
      h = Some p /\ exists timestamp_str msg, text = log_line timestamp_str msg /\ log_message msg
  | Opened _ | Closed _ => False
  end.

(** An episode URL linked from the index page of [self], as [w] answers. *)
Definition linked_episode (w : world) (self : scraper) (u : string) : Prop :=
  is_episode_url u = true /\
  exists status page a,
    http_get w (base_url_year self) = Response status page /\
    a ∈ page /\ attrs a !! "href"%string = Some u.

(** A computation whose result does not depend on the state it starts in. *)
Definition stateless {A : Type} (m : M A) : Prop :=
  forall s s', fst (m s) = fst (m s').

(** *** Worlds to evaluate the scraper in *)

(** An anchor with an [href] and one text child, and an anchor without any
    attribute. *)
Definition link (h text : string) : anchor :=
  {| attrs := {[ "href"%string := h ]}; contents := [text] |}.

Definition bare_anchor : anchor := {| attrs := ∅; contents := ["top"%string] |}.

(** A site given by its pages; any other URL cannot be connected to. *)
Fixpoint site (pages : list (string * document)) (url : string) : reply :=
  match pages with
  | (u, page) :: rest => if String.eqb u url then Response 200 page else site rest url
  | [] => Failure (RequestException "ConnectionError")
  end.

Definition world_of (pages : list (string * document)) : world :=
  {| http_get := site pages;
     now := fun _ => "2021-06-01 12:00:00"%string;
     set_iter := elements |}.

Definition index_2021 : string := "https://seenunseen.in/episodes/2021/".

Definition episode_206 : string :=
  "https://seenunseen.in/episodes/2021/1/4/episode-206-the-art-of-x/".

(** A year whose index page has no anchor at all; one whose index page has
    an anchor without attributes; one whose only episode page has such an
    anchor; and one whose only episode refers to a book. *)
Definition empty_index : world := world_of [(index_2021, [])].

Definition bare_index : world := world_of [(index_2021, [bare_anchor])].

Definition bare_episode : world :=
  world_of [(index_2021, [link episode_206 "Episode 206"]);
            (episode_206, [bare_anchor])].

Definition one_book : world :=
  world_of [(index_2021, [link episode_206 "Episode 206"]);
            (episode_206, [link "https://www.amazon.in/dp/0141033576" "Thinking, Fast and Slow";
                           link "https://other.example" "ignored"])].

(** A file system on which every path opens, and one without the directory
    [no_such_dir], where [open] raises [FileNotFoundError]. *)
Definition every_path_opens : string -> option exn := fun _ => None.

Definition no_such_dir : string -> option exn :=
  fun path =>
    if String.prefix "no_such_dir/" path then Some (OtherException "FileNotFoundError")
    else None.

(** The state before a first invocation, and a state in which the log file
    [path] is open. *)
Definition fresh : state := {| log_file := None; trace := [] |}.

Definition logging (path : string) : state := {| log_file := Some path; trace := [] |}.

(** The regular expressions the two patterns are read as. *)
Definition digits_re : Re.regex := Re.Plus (Re.Class [("0", "9")]%char).

Definition ep_url_re : Re.regex :=
  lit_seq "http" (Re.Cat (Re.Opt (Re.Lit "s"))
    (lit_seq "://seenunseen" (Re.Cat Re.Dot
      (lit_seq "in/episodes/" (Re.Cat (Re.Group 1 digits_re)
        (lit_seq "/" (Re.Cat (Re.Group 2 digits_re)
          (lit_seq "/" (Re.Cat (Re.Group 3 digits_re)
            (lit_seq "/episode-" (Re.Cat (Re.Group 4 digits_re)
              (lit_seq "-" (Re.Plus Re.Dot))))))))))))).

Definition target_url_re : Re.regex :=
  lit_seq "http" (Re.Cat (Re.Opt (Re.Lit "s"))
    (lit_seq "://" (Re.Cat (Re.Star (Re.Class [("w", "w"); (".", ".")]%char))
      (lit_seq "amazon" (Re.Cat Re.Dot (Re.Plus (Re.Class [("a", "z")]%char))))))).

(** * Properties *)

Local Open Scope list_scope.

(** ** Reading the patterns *)

Lemma compile_ep_url_pattern : Re.compile ep_url_pattern = Some ep_url_re.
Proof. vm_compute. reflexivity. Qed.

Lemma compile_target_url_pattern : Re.compile target_url_pattern = Some target_url_re.
Proof. vm_compute. reflexivity. Qed.

(** ** Strings as lists of characters *)

Lemma chars_app (a b : string) : chars (a ++ b)%string = chars a ++ chars b.
Proof.
  induction a as [|c a IH]; [reflexivity|].
  change (chars (String c (a ++ b)%string) = c :: (chars a ++ chars b)).
  unfold chars in *. simpl. by rewrite IH.
Qed.

Lemma chars_cons (c : ascii) (s : string) : chars (String c s) = c :: chars s.
Proof. reflexivity. Qed.

Lemma chars_inj (a b : string) : chars a = chars b -> a = b.
Proof.
  intros H. rewrite <- (string_of_list_ascii_of_string a), <- (string_of_list_ascii_of_string b).
  unfold chars in H. by rewrite H.
Qed.

Lemma chars_of_list (l : list ascii) : chars (string_of_list_ascii l) = l.
Proof. apply list_ascii_of_string_of_list_ascii. Qed.

Lemma take_skip_while p (s : list ascii) : take_while p s ++ skip_while p s = s.
Proof. induction s as [|x s IH]; simpl; [done|]. destruct (p x); simpl; [by rewrite IH | done]. Qed.

Lemma take_while_all p (s : list ascii) : forallb p (take_while p s) = true.
Proof. induction s as [|x s IH]; simpl; [done|]. destruct (p x) eqn:E; simpl; [by rewrite E | done]. Qed.

Lemma skip_while_length p (s : list ascii) : (length (skip_while p s) <= length s)%nat.
Proof. induction s as [|x s IH]; simpl; [lia|]. destruct (p x); simpl; lia. Qed.

Lemma skip_while_stop p (a : list ascii) (c : ascii) (b : list ascii) :
  forallb p a = true -> p c = false -> skip_while p (a ++ c :: b) = c :: b.
Proof.
  induction a as [|x a IH]; simpl; intros Ha Hc.
  - by rewrite Hc.
  - apply andb_true_iff in Ha as [-> Ha]. by apply IH.
Qed.

Lemma take_while_stop p (a : list ascii) (c : ascii) (b : list ascii) :
  forallb p a = true -> p c = false -> take_while p (a ++ c :: b) = a.
Proof.
  induction a as [|x a IH]; simpl; intros Ha Hc.
  - by rewrite Hc.
  - apply andb_true_iff in Ha as [-> Ha]. f_equal. by apply IH.
Qed.

Lemma take_while_prefix p (s : list ascii) :
  take (length s - length (skip_while p s)) s = take_while p s.
Proof.
  rewrite <- (take_skip_while p s) at 1 3.
  rewrite length_app.
  replace (length (take_while p s) + length (skip_while p s) - length (skip_while p s))%nat
    with (length (take_while p s)) by lia.
  by rewrite take_app_length.
Qed.

Lemma strip_prefix_app (l s : list ascii) : strip_prefix l (l ++ s) = Some s.
Proof. induction l as [|c l IH]; simpl; [done|]. by rewrite Ascii.eqb_refl. Qed.

Lemma strip_prefix_Some (l s s' : list ascii) : strip_prefix l s = Some s' -> s = l ++ s'.
Proof.
  revert s. induction l as [|c l IH]; simpl; intros s H.
  - congruence.
  - destruct s as [|x s]; [done|].
    destruct (Ascii.eqb_spec x c) as [->|]; [|done]. f_equal. by apply IH.
Qed.

(** ** The matcher on the shapes the patterns are made of *)

Lemma run_lit_seq (l : string) (r : Re.regex) (k : Re.cont) s g :
  Re.run (lit_seq l r) k s g =
  match strip_prefix (chars l) s with
  | Some s' => Re.run r k s' g
  | None => None
  end.
Proof.
  unfold lit_seq. generalize (chars l) as cs. intros cs. revert s.
  induction cs as [|c cs IH]; intros s; simpl; [done|].
  destruct s as [|x s]; [done|]. destruct (Ascii.eqb x c); [apply IH | done].
Qed.

Lemma run_cat r1 r2 (k : Re.cont) s g :
  Re.run (Re.Cat r1 r2) k s g = Re.run r1 (Re.run r2 k) s g.
Proof. reflexivity. Qed.

Lemma run_opt_lit c (k : Re.cont) s g :
  Re.run (Re.Opt (Re.Lit c)) k s g =
  match s with
  | x :: s' => if Ascii.eqb x c
               then match k s' g with Some m => Some m | None => k s g end
               else k s g
  | [] => k s g
  end.
Proof. simpl. destruct s as [|x s]; [done|]. by destruct (Ascii.eqb x c). Qed.

Lemma run_dot (k : Re.cont) s g :
  Re.run Re.Dot k s g =
  match s with
  | x :: s' => if Ascii.eqb x newline then None else k s' g
  | [] => None
  end.
Proof. reflexivity. Qed.

(** Greedy repetition of a class before a continuation that cannot start with
    a character of the class: the whole run is taken. *)
Lemma repeat_class_skip rs (k : Re.cont) :
  rejects (Re.class_mem rs) k ->
  forall n s g, (length s <= n)%nat ->
    Re.repeat_greedy (Re.run (Re.Class rs)) k n s g = k (skip_while (Re.class_mem rs) s) g.
Proof.
  intros Hk n. induction n as [|n IH]; intros s g Hn.
  - destruct s; [done | simpl in Hn; lia].
  - destruct s as [|x s]; [done|]. simpl.
    destruct (Re.class_mem rs x) eqn:Hx; [|done].
    replace (length s <? S (length s))%nat with true by (symmetry; apply Nat.ltb_lt; lia).
    simpl in Hn. rewrite IH by lia.
    destruct (k (skip_while (Re.class_mem rs) s) g) eqn:E; [done|].
    by apply Hk.
Qed.

Lemma run_star_class rs (k : Re.cont) s g :
  rejects (Re.class_mem rs) k ->
  Re.run (Re.Star (Re.Class rs)) k s g = k (skip_while (Re.class_mem rs) s) g.
Proof. intros Hk. simpl. by apply repeat_class_skip. Qed.

Lemma run_plus_class rs (k : Re.cont) s g :
  rejects (Re.class_mem rs) k ->
  Re.run (Re.Plus (Re.Class rs)) k s g =
  match s with
  | x :: s' => if Re.class_mem rs x then k (skip_while (Re.class_mem rs) s') g else None
  | [] => None
  end.
Proof.
  intros Hk. simpl. destruct s as [|x s]; [done|].
  destruct (Re.class_mem rs x); [|done]. by apply repeat_class_skip.
Qed.

(** A capturing group of digits captures the whole run of digits. *)
Lemma run_group_digits i (k : Re.cont) s g :
  rejects is_digit k ->
  Re.run (Re.Group i digits_re) k s g =
  match s with
  | x :: s' =>
      if is_digit x
      then k (skip_while is_digit s') ((i, x :: take_while is_digit s') :: g)
      else None
  | [] => None
  end.
Proof.
  intros Hk. unfold digits_re.
  change (Re.run (Re.Group i ?r) k s g)
    with (Re.run r (fun s' g' => k s' ((i, take (length s - length s') s) :: g')) s g).
  rewrite run_plus_class.
  - destruct s as [|x s]; [done|].
    change (Re.class_mem [("0"%char, "9"%char)]) with is_digit.
    destruct (is_digit x); [|done]. do 3 f_equal.
    pose proof (skip_while_length is_digit s).
    replace (length (x :: s) - length (skip_while is_digit s))%nat
      with (S (length s - length (skip_while is_digit s))) by (simpl; lia).
    simpl. f_equal. apply take_while_prefix.
  - intros x s' g' Hx. by apply Hk.
Qed.

(** Repetition of a single-character step before the accepting continuation
    succeeds and leaves the captures as they are. *)
Lemma repeat_accept (step : Re.cont -> Re.cont) :
  (forall k s g, step k s g = None \/ exists s', step k s g = k s' g) ->
  forall n s g, Re.repeat_greedy step (fun _ g' => Some g') n s g = Some g.
Proof.
  intros Hstep n. induction n as [|n IH]; intros s g; simpl; [done|].
  match goal with |- context [step ?k s g] => destruct (Hstep k s g) as [->|[s' ->]] end; [done|].
  destruct (length s' <? length s)%nat; [by rewrite IH | done].
Qed.

Lemma step_dot (k : Re.cont) s g :
  Re.run Re.Dot k s g = None \/ exists s', Re.run Re.Dot k s g = k s' g.
Proof.
  simpl. destruct s as [|x s]; [by left|]. destruct (Ascii.eqb x newline); [by left | right; eauto].
Qed.

Lemma step_class rs (k : Re.cont) s g :
  Re.run (Re.Class rs) k s g = None \/ exists s', Re.run (Re.Class rs) k s g = k s' g.
Proof.
  simpl. destruct s as [|x s]; [by left|]. destruct (Re.class_mem rs x); [right; eauto | by left].
Qed.

Lemma run_plus_dot_accept s g :
  Re.run (Re.Plus Re.Dot) (fun _ g' => Some g') s g =
  match s with
  | x :: _ => if Ascii.eqb x newline then None else Some g
  | [] => None
  end.
Proof.
  simpl. destruct s as [|x s]; [done|]. destruct (Ascii.eqb x newline); [done|].
  apply repeat_accept. intros; apply step_dot.
Qed.

Lemma run_plus_class_accept rs s g :
  Re.run (Re.Plus (Re.Class rs)) (fun _ g' => Some g') s g =
  match s with
  | x :: _ => if Re.class_mem rs x then Some g else None
  | [] => None
  end.
Proof.
  simpl. destruct s as [|x s]; [done|]. destruct (Re.class_mem rs x); [|done].
  apply repeat_accept. intros; apply step_class.
Qed.

(** A continuation that starts with a literal rejects every other character. *)
Lemma rejects_lit_seq p (c : ascii) (l : string) r (k : Re.cont) :
  p c = false -> rejects p (Re.run (lit_seq (String c l) r) k).
Proof.
  intros Hc x s g Hx. rewrite run_lit_seq. simpl.
  destruct (Ascii.eqb_spec x c) as [->|]; [congruence | done].
Qed.

Lemma numeral_chars (t : string) :
  numeral t = true ->
  exists x xs, chars t = x :: xs /\ is_digit x = true /\ forallb is_digit xs = true.
Proof.
  unfold numeral, all_of. destruct t as [|x t]; [done|]. rewrite chars_cons. simpl.
  intros H. apply andb_true_iff in H as [Hx Hxs]. eauto.
Qed.

Lemma run_group_numeral i (k : Re.cont) (t : string) (c : ascii) rest g :
  rejects is_digit k -> numeral t = true -> is_digit c = false ->
  Re.run (Re.Group i digits_re) k (chars t ++ c :: rest) g = k (c :: rest) ((i, chars t) :: g).
Proof.
  intros Hk Ht Hc. rewrite run_group_digits by done.
  destruct (numeral_chars t Ht) as (x & xs & -> & Hx & Hxs). simpl. rewrite Hx.
  by rewrite skip_while_stop, take_while_stop.
Qed.

Lemma is_scheme_cases (scheme : string) :
  is_scheme scheme = true -> scheme = "http"%string \/ scheme = "https"%string.
Proof.
  unfold is_scheme. intros H. apply orb_true_iff in H as [H|H]; apply String.eqb_eq in H; auto.
Qed.

(** The optional [s] of the scheme: what follows [http] is matched by the
    rest of the pattern either directly or after an [s]. *)
Lemma run_scheme (r : Re.regex) (k : Re.cont) (scheme : string) rest g m :
  is_scheme scheme = true ->
  Re.run r k rest g = Some m ->
  (forall s' g', Re.run r k ("s"%char :: s') g' = None) ->
  Re.run (lit_seq "http" (Re.Cat (Re.Opt (Re.Lit "s")) r)) k (chars scheme ++ rest) g = Some m.
Proof.
  intros Hs Hr Hno. rewrite run_lit_seq.
  destruct (is_scheme_cases _ Hs) as [-> | ->].
  - rewrite strip_prefix_app, run_cat, run_opt_lit. destruct rest as [|x rest]; [done|].
    destruct (Ascii.eqb_spec x "s") as [->|]; [|done]. by rewrite Hno in Hr.
  - change (chars "https" ++ rest) with (chars "http" ++ "s"%char :: rest).
    rewrite strip_prefix_app, run_cat, run_opt_lit, Ascii.eqb_refl. by rewrite Hr.
Qed.

Lemma run_scheme_inv (r : Re.regex) (k : Re.cont) s g m :
  Re.run (lit_seq "http" (Re.Cat (Re.Opt (Re.Lit "s")) r)) k s g = Some m ->
  exists scheme rest,
    is_scheme scheme = true /\ s = chars scheme ++ rest /\ Re.run r k rest g = Some m.
Proof.
  rewrite run_lit_seq. destruct (strip_prefix (chars "http") s) as [s1|] eqn:E; [|done].
  apply strip_prefix_Some in E as ->. rewrite run_cat, run_opt_lit. intros H.
  assert (Re.run r k s1 g = Some m \/
          exists s2, s1 = "s"%char :: s2 /\ Re.run r k s2 g = Some m) as [H1 | (s2 & -> & H2)].
  { destruct s1 as [|x s1]; [by left|]. destruct (Ascii.eqb_spec x "s") as [->|]; [|by left].
    destruct (Re.run r k s1 g) eqn:E'; [right; exists s1; by rewrite <- H | by left]. }
  - by exists "http"%string, s1.
  - by exists "https"%string, s2.
Qed.

(** ** [re.match] on the retailer pattern *)

Lemma exec_target_url (scheme sub : string) (sep l : ascii) (rest : string) :
  is_scheme scheme = true -> all_of is_w_or_dot sub = true ->
  sep <> newline -> is_lower l = true ->
  Re.exec target_url_re (target_url scheme sub sep l rest) = Some {| Re.captured := [] |}.
Proof.
  intros Hs Hsub Hsep Hl. unfold Re.exec, target_url.
  rewrite !chars_app, !chars_cons.
  unfold target_url_re. erewrite run_scheme; [done | done | |].
  - rewrite run_lit_seq, strip_prefix_app, run_cat, run_star_class
      by (by apply rejects_lit_seq).
    rewrite <- app_comm_cons, skip_while_stop by done.
    rewrite run_lit_seq. cbn [chars list_ascii_of_string strip_prefix app Ascii.eqb Bool.eqb].
    rewrite run_cat, run_dot.
    destruct (Ascii.eqb_spec sep newline); [done|].
    rewrite run_plus_class_accept. unfold is_lower in Hl. by rewrite Hl.
  - intros s' g'. by rewrite run_lit_seq.
Qed.

Lemma exec_target_url_inv (url : string) m :
  Re.exec target_url_re url = Some m ->
  exists scheme sub sep l rest,
    url = target_url scheme sub sep l rest /\
    is_scheme scheme = true /\ all_of is_w_or_dot sub = true /\
    sep <> newline /\ is_lower l = true.
Proof.
  unfold Re.exec. destruct (Re.run _ _ _ _) as [g|] eqn:H; [|done]. intros _.
  unfold target_url_re in H. apply run_scheme_inv in H as (scheme & s1 & Hs & Hurl & H).
  rewrite run_lit_seq in H. destruct (strip_prefix _ s1) as [s2|] eqn:E1; [|done].
  apply strip_prefix_Some in E1 as ->.
  rewrite run_cat, run_star_class in H by (by apply rejects_lit_seq).
  rewrite run_lit_seq in H.
  destruct (strip_prefix _ (skip_while _ s2)) as [s3|] eqn:E2; [|done].
  apply strip_prefix_Some in E2.
  rewrite run_cat, run_dot in H. destruct s3 as [|sep s4]; [done|].
  destruct (Ascii.eqb_spec sep newline) as [|Hsep]; [done|].
  rewrite run_plus_class_accept in H. destruct s4 as [|l s5]; [done|].
  destruct (Re.class_mem _ l) eqn:Hl; [|done].
  exists scheme, (string_of_list_ascii (take_while is_w_or_dot s2)), sep, l,
         (string_of_list_ascii s5).
  split; [|split; [done | split; [|done]]].
  - apply chars_inj. unfold target_url.
    rewrite !chars_app, !chars_cons, !chars_of_list, Hurl. do 2 f_equal.
    rewrite <- (take_skip_while is_w_or_dot s2) at 1. f_equal. exact E2.
  - unfold all_of. rewrite chars_of_list. apply take_while_all.
Qed.

Lemma is_target_url_exec (url : string) :
  is_target_url url = match Re.exec target_url_re url with Some _ => true | None => false end.
Proof. unfold is_target_url, re_match. by rewrite compile_target_url_pattern. Qed.

(** The URLs [__is_target_url] accepts, exactly. *)
Lemma is_target_url_spec (url : string) :
  is_target_url url = true <->
  exists scheme sub sep l rest,
    url = target_url scheme sub sep l rest /\
    is_scheme scheme = true /\ all_of is_w_or_dot sub = true /\
    sep <> newline /\ is_lower l = true.
Proof.
  rewrite is_target_url_exec. split.
  - destruct (Re.exec target_url_re url) as [m|] eqn:E; [|done]. intros _.
    by apply exec_target_url_inv in E.
  - intros (scheme & sub & sep & l & rest & -> & Hs & Hsub & Hsep & Hl).
    by rewrite exec_target_url.
Qed.

(** The retailer classifier (claim C1, as amended).  A URL made of [http] or
    [https], [://], a run of [w] and [.] characters, [amazon], a literal dot
    and a lowercase ASCII letter is accepted, whatever follows that letter
    (the match is a prefix match).  Conversely an accepted URL is made of
    [http] or [https], [://], a run of [w] and [.] characters, [amazon], one
    further character and a lowercase ASCII letter, followed by anything; so
    a URL of that form whose top-level domain begins with a character other
    than a lowercase letter is rejected. *)
Theorem is_target_url_prefix (url : string) :
  (forall scheme sub l rest,
      is_scheme scheme = true -> all_of is_w_or_dot sub = true -> is_lower l = true ->
      url = target_url scheme sub "." l rest -> is_target_url url = true) /\
  (is_target_url url = true ->
   exists scheme sub sep l rest,
     url = target_url scheme sub sep l rest /\
     is_scheme scheme = true /\ all_of is_w_or_dot sub = true /\ is_lower l = true) /\
  (forall scheme sub sep c rest,
      is_scheme scheme = true -> all_of is_w_or_dot sub = true -> is_lower c = false ->
      url = target_url scheme sub sep c rest -> is_target_url url = false).
Proof.
  split; [|split].
  - intros scheme sub l rest Hs Hsub Hl ->. apply is_target_url_spec.
    exists scheme, sub, "."%char, l, rest. by repeat split.
  - intros H. apply is_target_url_spec in H as (scheme & sub & sep & l & rest & ? & ? & ? & ? & ?).
    by exists scheme, sub, sep, l, rest.
  - intros scheme sub sep c rest Hs Hsub Hc ->.
    destruct (is_target_url _) eqn:E; [|done]. exfalso.
    apply is_target_url_spec in E as (scheme' & sub' & sep' & l & rest' & E & Hs' & Hsub' & _ & Hl).
    apply (f_equal chars) in E. unfold target_url in E.
    rewrite !chars_app in E.
    assert (scheme = scheme') as <-.
    { destruct (is_scheme_cases _ Hs) as [-> | ->], (is_scheme_cases _ Hs') as [-> | ->];
        done. }
    apply app_inv_head, app_inv_head in E.
    change (chars "amazon" ++ ?t) with ("a"%char :: (chars "mazon" ++ t)) in E.
    apply (f_equal (skip_while is_w_or_dot)) in E.
    rewrite !skip_while_stop in E by done.
    cbn [chars list_ascii_of_string app] in E. congruence.
Qed.

Lemma is_target_url_www_amazon_in :
  is_target_url "https://www.amazon.in/dp/0141033576" = true.
Proof.
  apply (proj1 (is_target_url_prefix "https://www.amazon.in/dp/0141033576")
           "https" "www." "i"%char "n/dp/0141033576"); reflexivity.
Defined.

(** On ['https://amazon.c0m'], whose top-level domain holds a digit, the
    classifier answers true: the pattern is satisfied by the prefix
    ['https://amazon.c']. *)
Lemma is_target_url_numeric_tld : is_target_url "https://amazon.c0m" = true.
Proof. vm_compute. reflexivity. Qed.

(** ** [re.match] on the episode pattern *)

Lemma run_group_then_lit i (t : string) (c : ascii) (l : string) r (k : Re.cont) rest g :
  numeral t = true -> is_digit c = false ->
  Re.run (Re.Cat (Re.Group i digits_re) (lit_seq (String c l) r)) k
         (chars t ++ chars (String c l) ++ rest) g =
  Re.run r k rest ((i, chars t) :: g).
Proof.
  intros Ht Hc. rewrite run_cat.
  change (chars (String c l) ++ rest) with (c :: (chars l ++ rest)).
  rewrite run_group_numeral by (done || by apply rejects_lit_seq).
  change (c :: chars l ++ rest) with (chars (String c l) ++ rest).
  by rewrite run_lit_seq, strip_prefix_app.
Qed.

(** On a URL built from the components of the template, the four groups are
    the four numerals. *)
Lemma exec_episode_url (scheme : string) (sep : ascii) (Y M D N slug : string) :
  is_scheme scheme = true -> sep <> newline ->
  numeral Y = true -> numeral M = true -> numeral D = true -> numeral N = true ->
  slug_ok slug = true ->
  Re.exec ep_url_re (episode_url scheme sep Y M D N slug) =
  Some {| Re.captured := [(4, chars N); (3, chars D); (2, chars M); (1, chars Y)]%nat |}.
Proof.
  intros Hs Hsep HY HM HD HN Hslug. unfold Re.exec, episode_url.
  rewrite !chars_app, (chars_cons sep).
  unfold ep_url_re. erewrite run_scheme; [done | done | |].
  - rewrite run_lit_seq, strip_prefix_app, run_cat, run_dot, <- app_comm_cons.
    destruct (Ascii.eqb_spec sep newline); [done|].
    rewrite run_lit_seq, strip_prefix_app.
    rewrite !run_group_then_lit by done.
    rewrite run_plus_dot_accept. destruct slug as [|x slug]; [done|].
    rewrite chars_cons. simpl in Hslug. by destruct (Ascii.eqb x newline).
  - intros s' g'. by rewrite run_lit_seq.
Qed.

Lemma re_match_ep_url (url : string) :
  re_match ep_url_pattern url = Re.exec ep_url_re url.
Proof. unfold re_match. by rewrite compile_ep_url_pattern. Qed.

Lemma get_episode_info_groups (url : string) (Y M D N : string) :
  re_match ep_url_pattern url =
    Some {| Re.captured := [(4, chars N); (3, chars D); (2, chars M); (1, chars Y)]%nat |} ->
  get_episode_info url =
  and_then (int Y) (fun year =>
  and_then (int M) (fun month =>
  and_then (int D) (fun day =>
  and_then (mk_datetime year month day) (fun ep_date =>
  and_then (int N) (fun ep_num => Return (Some (ep_num, ep_date))))))).
Proof.
  intros H. unfold get_episode_info. rewrite H.
  unfold Re.group. cbn [Re.captured find fst snd Nat.eqb].
  by rewrite !string_of_list_ascii_of_string.
Qed.

Lemma int_eq (t : string) :
  int t = if too_long t then Raise ValueError else Return (decimal t).
Proof. reflexivity. Qed.

(** The episode extractor on the URLs of the template (claim C3, as amended).
    For a URL made of the scheme, the host, [/episodes/], the numerals [Y],
    [M], [D], [/episode-], the numeral [N], a hyphen and a slug: when none of
    the four numerals has more than 4300 digits and ([Y], [M], [D]) is a date
    that exists, [__get_episode_info] returns exactly [(N, date(Y, M, D))];
    otherwise it returns no pair but raises - [ValueError] for a date
    numeral of more than 4300 digits, else [OverflowError] for a date
    numeral of 2^31 or more, else [ValueError] for a date that does not
    exist, else [ValueError] for an episode numeral of more than 4300
    digits. *)
Theorem get_episode_info_components
    (scheme : string) (sep : ascii) (Y M D N slug : string) :
  is_scheme scheme = true -> sep <> newline ->
  numeral Y = true -> numeral M = true -> numeral D = true -> numeral N = true ->
  slug_ok slug = true ->
  get_episode_info (episode_url scheme sep Y M D N slug) =
  if too_long Y || too_long M || too_long D then Raise ValueError
  else if negb (fits_c_int (decimal Y) && fits_c_int (decimal M) && fits_c_int (decimal D))
  then Raise OverflowError
  else if negb (valid_date (decimal Y) (decimal M) (decimal D)) then Raise ValueError
  else if too_long N then Raise ValueError
  else Return (Some (decimal N, date (decimal Y) (decimal M) (decimal D))).
Proof.
  intros Hs Hsep HY HM HD HN Hslug.
  rewrite (get_episode_info_groups _ Y M D N)
    by (by rewrite re_match_ep_url, exec_episode_url).
  rewrite !int_eq. unfold mk_datetime, date.
  destruct (too_long Y); [done|]. destruct (too_long M); [done|].
  destruct (too_long D); [done|]. cbn [and_then orb].
  destruct (negb _); [done|]. destruct (valid_date _ _ _); [|done].
  cbn [and_then negb]. by destruct (too_long N).
Qed.

Lemma get_episode_info_episode_206 :
  get_episode_info "https://seenunseen.in/episodes/2021/1/4/episode-206-the-art-of-x/" =
  Return (Some (206, date 2021 1 4)).
Proof.
  exact (get_episode_info_components "https" "."%char "2021" "1" "4" "206"
           "the-art-of-x/" eq_refl ltac:(discriminate) eq_refl eq_refl eq_refl eq_refl eq_refl).
Defined.

(** A URL of the template whose month is 13: the extractor raises instead of
    returning a pair. *)
Lemma get_episode_info_month_13 :
  is_episode_url "https://seenunseen.in/episodes/2021/13/01/episode-5-x" = true /\
  get_episode_info "https://seenunseen.in/episodes/2021/13/01/episode-5-x" = Raise ValueError.
Proof. split; vm_compute; reflexivity. Qed.

(** The classifier and the extractor agree (claim C7): [__get_episode_info]
    returns [None] exactly on the URLs on which [__is_episode_url] is false,
    both being decided by the same [re.match] on [ep_url_pattern]. *)
Theorem get_episode_info_None_iff (url : string) :
  get_episode_info url = Return None <-> is_episode_url url = false.
Proof.
  unfold get_episode_info, is_episode_url.
  destruct (re_match ep_url_pattern url) as [result|]; [|done].
  split; [|done].
  destruct (int (Re.group result 1)) as [year|]; [|done].
  destruct (int (Re.group result 2)) as [month|]; [|done].
  destruct (int (Re.group result 3)) as [day|]; [|done]. cbn [and_then].
  destruct (mk_datetime year month day); [|done]. cbn [and_then].
  by destruct (int (Re.group result 4)).
Qed.

(** ** The fetcher and the logger *)

Lemma write_log_eq (w : world) (msg : string) (s : state) :
  write_log w msg s =
  (Return tt,
   match log_file s with
   | Some f => emit (Wrote f (log_line (now w (length (trace s))) msg)) s
   | None => s
   end).
Proof. unfold write_log. by destruct (log_file s). Qed.

Lemma get_page_soup_response (w : world) (url : string) status body (s : state) :
  http_get w url = Response status body ->
  get_page_soup w url s = (Return (Some body), emit (Requested url) s).
Proof. intros H. unfold get_page_soup, bind, requests_get. by rewrite H. Qed.

Lemma get_page_soup_request_exception (w : world) (url : string) exp (s : state) :
  http_get w url = Failure (RequestException exp) ->
  get_page_soup w url s =
  (Return None,
   snd (write_log w "Failed getting URL : {url} ; Error : {exp}" (emit (Requested url) s))).
Proof.
  intros H. unfold get_page_soup, bind, requests_get. rewrite H.
  rewrite write_log_eq. reflexivity.
Qed.

Lemma get_page_soup_other_exception (w : world) (url : string) e (s : state) :
  http_get w url = Failure e -> (forall exp, e <> RequestException exp) ->
  get_page_soup w url s = (Raise e, emit (Requested url) s).
Proof.
  intros H Hne. unfold get_page_soup, bind, requests_get. rewrite H.
  destruct e; try reflexivity. by destruct (Hne detail).
Qed.

(** The fetcher returns [None] exactly when [requests.get] raised a
    [RequestException]. *)
Lemma get_page_soup_None (w : world) (url : string) (s : state) :
  fst (get_page_soup w url s) = Return None <->
  exists exp, http_get w url = Failure (RequestException exp).
Proof.
  destruct (http_get w url) as [status body | e] eqn:H.
  - rewrite (get_page_soup_response _ _ _ _ _ H). split; [done | by intros [? ?]].
  - destruct e;
      try (rewrite (get_page_soup_other_exception _ _ _ _ H) by done;
           split; [done | by intros [? ?]]).
    rewrite (get_page_soup_request_exception _ _ _ _ H). split; eauto.
Qed.

(** ** Computations that leave the log handle alone *)

Section Quiet.
Context {A B : Type}.

Lemma quiet_ret (a : A) : quiet (ret a).
Proof. intros s. split; [done|]. exists []. by rewrite app_nil_r. Qed.

Lemma quiet_raise (e : exn) : quiet (raise (A := A) e).
Proof. intros s. split; [done|]. exists []. by rewrite app_nil_r. Qed.

Lemma quiet_lift (o : outcome A) : quiet (lift o).
Proof. intros s. split; [done|]. exists []. by rewrite app_nil_r. Qed.

Lemma quiet_bind (m : M A) (f : A -> M B) :
  quiet m -> (forall a, quiet (f a)) -> quiet (bind m f).
Proof.
  intros Hm Hf s. unfold bind. destruct (Hm s) as (Hl & evs & Ht & Ho & Hc).
  destruct (m s) as [[a|e] s1]; simpl in *.
  - destruct (Hf a s1) as (Hl' & evs' & Ht' & Ho' & Hc').
    split; [congruence|]. exists (evs ++ evs').
    rewrite Ht', Ht, app_assoc. unfold opened, closed in *.
    by rewrite !omap_app, Ho, Ho', Hc, Hc'.
  - split; [done|]. by exists evs.
Qed.
End Quiet.

Lemma quiet_emit {A : Type} (a : outcome A) (e : event) :
  opened [e] = [] -> closed [e] = [] -> quiet (fun s => (a, emit e s)).
Proof. intros Ho Hc s. split; [done|]. by exists [e]. Qed.

Lemma quiet_write_log (w : world) (msg : string) : quiet (write_log w msg).
Proof.
  intros s. rewrite write_log_eq. simpl. destruct (log_file s) as [f|] eqn:E.
  - split; [done|]. by eexists [_].
  - split; [done|]. exists []. by rewrite app_nil_r.
Qed.

Lemma quiet_get_page_soup (w : world) (url : string) : quiet (get_page_soup w url).
Proof.
  unfold get_page_soup. apply quiet_bind.
  - by apply (quiet_emit (Return (http_get w url)) (Requested url)).
  - intros [status body | e]; [apply quiet_ret|].
    destruct e; try apply quiet_raise.
    apply quiet_bind; [apply quiet_write_log | intros; apply quiet_ret].
Qed.

Lemma quiet_delay (self : scraper) : quiet (delay self).
Proof.
  unfold delay. destruct (req_delay_second self) as [seconds|]; [|apply quiet_ret].
  destruct (seconds =? 0); [apply quiet_ret|].
  unfold time_sleep. intros s.
  destruct ((seconds <? - sleep_max) || (sleep_max <? seconds));
    [split; [done|]; exists []; by rewrite app_nil_r|].
  destruct (seconds <? 0).
  - split; [done|]. exists []. by rewrite app_nil_r.
  - split; [done|]. by eexists [_].
Qed.

Lemma quiet_scrape_episode (w : world) (ep_url : string) df_list :
  quiet (scrape_episode w ep_url df_list).
Proof.
  unfold scrape_episode. apply quiet_bind; [apply quiet_get_page_soup|].
  intros [page|]; [|apply quiet_ret].
  apply quiet_bind; [apply quiet_write_log|]. intros _.
  apply quiet_bind; [apply quiet_lift|]. intros amazon_books.
  destruct (length amazon_books =? 0)%nat; [apply quiet_ret|].
  apply quiet_bind; [apply quiet_lift|]. intros [[ep_num d]|]; [|apply quiet_raise].
  apply quiet_bind; [apply quiet_lift | intros; apply quiet_ret].
Qed.

Lemma quiet_for_each_episode (w : world) (self : scraper) ep_urls df_list :
  quiet (for_each_episode w self ep_urls df_list).
Proof.
  revert df_list. induction ep_urls as [|u rest IH]; intros df_list; simpl.
  - apply quiet_ret.
  - apply quiet_bind; [|done].
    apply quiet_bind; [apply quiet_delay | intros; apply quiet_scrape_episode].
Qed.

Lemma quiet_collect_books (w : world) (self : scraper) base_page :
  quiet (collect_books w self base_page).
Proof.
  destruct base_page as [page|]; [|apply quiet_raise]. simpl.
  apply quiet_bind; [apply quiet_lift|]. intros hrefs.
  apply quiet_bind; [apply quiet_for_each_episode|]. intros df_list.
  destruct (length df_list =? 0)%nat; apply quiet_ret.
Qed.

Lemma quiet_get_books_as_dataframe (w : world) (self : scraper) :
  quiet (get_books_as_dataframe w self).
Proof.
  unfold get_books_as_dataframe. apply quiet_bind; [apply quiet_get_page_soup|].
  intros base_page. apply quiet_bind; [apply quiet_write_log|]. intros _.
  apply quiet_collect_books.
Qed.

(** ** [get_books] *)

Lemma truthy_path_Some (self : scraper) (path : string) :
  log_filepath self = Some path -> path <> EmptyString ->
  truthy_path (log_filepath self) = Some path.
Proof.
  intros -> Hne. simpl. destruct (String.eqb_spec path EmptyString); [done | done].
Qed.

(** Between the opening and the closing of the log file, once it has
    opened: whatever the body does and however it ends. *)
Lemma get_books_bracket (w : world) (self : scraper) (path : string) (s : state) :
  truthy_path (log_filepath self) = Some path ->
  exists events,
    trace (snd (get_books w self s)) = trace s ++ [Opened path] ++ events ++ [Closed path] /\
    opened events = [] /\ closed events = [] /\
    log_file (snd (get_books w self s)) = None.
Proof.
  intros Hp. unfold get_books, bind, open_log, try_finally. rewrite Hp.
  match goal with |- context [get_books_as_dataframe w self ?s1] =>
    destruct (quiet_get_books_as_dataframe w self s1) as (Hl & events & Ht & Ho & Hc);
    destruct (get_books_as_dataframe w self s1) as [r s2] end.
  simpl in *. exists events. unfold close_log. rewrite Hl. simpl.
  rewrite Ht, <- !app_assoc. done.
Qed.

(** When every configured log file opens, a call of [get_books] is the
    opening followed by the guarded body. *)
Lemma get_books_call_opens (fs : string -> option exn) (w : world) (self : scraper)
    (s : state) :
  log_opens fs self -> get_books_call fs w self s = get_books w self s.
Proof.
  unfold log_opens, get_books_call, builtin_open. intros H.
  destruct (truthy_path (log_filepath self)) as [path|]; [|done]. by rewrite (H path).
Qed.

(** The log file as a scoped resource (claim C8).  With a log path
    configured, a call of [get_books] on which [open] succeeds opens the file
    first, closes it last, opens and closes nothing in between, and leaves
    [self.log_file] reset to [None]; this holds whatever the call does in
    between and however it ends: with a table, with [None] or with an
    exception.  A call on which [open] raises ends with that exception at
    once: nothing is opened, requested, written or closed, and
    [self.log_file] keeps its value. *)
Theorem get_books_log_scope (fs : string -> option exn) (w : world) (self : scraper)
    (path : string) (s : state) :
  log_filepath self = Some path -> path <> EmptyString ->
  match fs path with
  | None =>
      exists events,
        trace (snd (get_books_call fs w self s)) =
          trace s ++ [Opened path] ++ events ++ [Closed path] /\
        opened events = [] /\ closed events = [] /\
        log_file (snd (get_books_call fs w self s)) = None
  | Some e => get_books_call fs w self s = (Raise e, s)
  end.
Proof.
  intros Hp Hne. pose proof (truthy_path_Some _ _ Hp Hne) as Ht.
  destruct (fs path) as [e|] eqn:Hfs.
  - unfold get_books_call, builtin_open. by rewrite Ht, Hfs.
  - rewrite get_books_call_opens; [by apply get_books_bracket|].
    intros path' Hp'. rewrite Ht in Hp'. by injection Hp' as <-.
Qed.

Lemma get_books_log_scope_offline :
  exists events,
    trace (snd (get_books_call every_path_opens (world_of [])
                  (init 2021 None (Some "log.txt"%string)) fresh)) =
      trace fresh ++ [Opened "log.txt"] ++ events ++ [Closed "log.txt"] /\
    opened events = [] /\ closed events = [] /\
    log_file (snd (get_books_call every_path_opens (world_of [])
                     (init 2021 None (Some "log.txt"%string)) fresh)) = None.
Proof.
  apply (get_books_log_scope every_path_opens (world_of [])
           (init 2021 None (Some "log.txt"%string)) "log.txt" fresh);
    [reflexivity | discriminate].
Defined.

(** A log path in a directory that does not exist: [open] raises, and the
    call neither opens nor closes the log. *)
Lemma get_books_call_no_such_dir :
  log_filepath (init 2021 None (Some "no_such_dir/log.txt"%string)) =
    Some "no_such_dir/log.txt"%string /\
  get_books_call no_such_dir (world_of [])
    (init 2021 None (Some "no_such_dir/log.txt"%string)) fresh =
    (Raise (OtherException "FileNotFoundError"), fresh) /\
  ~ exists events,
      trace (snd (get_books_call no_such_dir (world_of [])
                    (init 2021 None (Some "no_such_dir/log.txt"%string)) fresh)) =
      trace fresh ++ [Opened "no_such_dir/log.txt"] ++ events
        ++ [Closed "no_such_dir/log.txt"].
Proof.
  split; [reflexivity|]. split; [reflexivity|]. intros [events H]. by vm_compute in H.
Qed.

(** ** The index page *)

(** An unavailable index page (claim C2).  When the fetch of the index page
    made by an invocation of [get_books] returns [None], the invocation does
    not return: the attribute error of [base_page.findAll] reaches the
    caller. *)
Theorem get_books_index_unavailable (w : world) (self : scraper) (s : state) :
  fst (get_page_soup w (base_url_year self) (snd (open_log self s))) = Return None ->
  fst (get_books w self s) = Raise no_findAll /\
  returns (fst (get_books w self s)) = false.
Proof.
  intros H. apply get_page_soup_None in H as [exp H].
  assert (fst (get_books w self s) = Raise no_findAll) as E; [|by rewrite E].
  unfold get_books, bind, try_finally, get_books_as_dataframe, bind.
  destruct (open_log self s) as [[[]|e] s1] eqn:E1.
  - rewrite (get_page_soup_request_exception _ _ _ _ H), !write_log_eq. reflexivity.
  - unfold open_log in E1. by destruct (truthy_path _).
Qed.

Lemma get_books_index_unavailable_offline :
  fst (get_books (world_of []) (init 2021 None None) fresh) = Raise no_findAll /\
  returns (fst (get_books (world_of []) (init 2021 None None) fresh)) = false.
Proof.
  apply (get_books_index_unavailable (world_of []) (init 2021 None None) fresh).
  reflexivity.
Defined.

Lemma get_books_as_dataframe_eq (w : world) (self : scraper) (s : state) :
  get_books_as_dataframe w self s =
  match get_page_soup w (base_url_year self) s with
  | (Return base_page, s2) =>
      collect_books w self base_page (snd (write_log w "Base page fetched" s2))
  | (Raise e, s2) => (Raise e, s2)
  end.
Proof.
  unfold get_books_as_dataframe, bind.
  destruct (get_page_soup w (base_url_year self) s) as [[base_page|e] s2]; [|done].
  by rewrite write_log_eq.
Qed.

Lemma get_books_eq (w : world) (self : scraper) (s : state) :
  get_books w self s =
  (fst (get_books_as_dataframe w self (snd (open_log self s))),
   close_log (snd (get_books_as_dataframe w self (snd (open_log self s))))).
Proof.
  unfold get_books, bind, try_finally.
  assert (fst (open_log self s) = Return tt) as E.
  { unfold open_log. by destruct (truthy_path _). }
  destruct (open_log self s) as [[[]|e] s1]; [|done]. simpl.
  by destruct (get_books_as_dataframe w self s1).
Qed.

Lemma open_log_configured (self : scraper) (path : string) (s : state) :
  log_filepath self = Some path -> path <> EmptyString ->
  snd (open_log self s) = {| log_file := Some path; trace := trace s ++ [Opened path] |}.
Proof. intros Hp Hne. unfold open_log. by rewrite (truthy_path_Some _ _ Hp Hne). Qed.

(** The line logged after the index fetch (claim C10).  With a log path
    configured, once the fetch of the index page has returned - with a page
    or with [None] - the next effect of the invocation is the line
    [Base page fetched]; when the fetch returned [None], the line is written
    all the same, after the line of the failed fetch, and the invocation then
    ends with the attribute error. *)
Theorem base_page_fetched_logged (w : world) (self : scraper) (path : string) (s : state)
    (base_page : option document) :
  log_filepath self = Some path -> path <> EmptyString ->
  fst (get_page_soup w (base_url_year self) (snd (open_log self s))) = Return base_page ->
  exists fetch_lines timestamp_str rest,
    trace (snd (get_books w self s)) =
      trace s ++ [Opened path; Requested (base_url_year self)] ++ fetch_lines
              ++ [Wrote path (log_line timestamp_str "Base page fetched")] ++ rest /\
    match base_page with
    | Some _ => fetch_lines = []
    | None =>
        (exists t, fetch_lines =
                   [Wrote path (log_line t "Failed getting URL : {url} ; Error : {exp}")]) /\
        fst (get_books w self s) = Raise no_findAll
    end.
Proof.
  intros Hp Hne Hfetch.
  rewrite get_books_eq, get_books_as_dataframe_eq.
  rewrite (open_log_configured _ _ _ Hp Hne) in *.
  destruct (http_get w (base_url_year self)) as [status body | e] eqn:H.
  - rewrite (get_page_soup_response _ _ _ _ _ H) in *.
    injection Hfetch as <-. rewrite write_log_eq. simpl.
    match goal with |- context [collect_books w self ?b ?s2] =>
      destruct (quiet_collect_books w self b s2) as (Hl & events & Ht & _);
      destruct (collect_books w self b s2) as [r s3] end.
    simpl in *. unfold close_log. rewrite Hl. simpl.
    exists []. do 2 eexists.
    split; [|done]. rewrite Ht, <- !app_assoc. simpl. reflexivity.
  - destruct e;
      try (rewrite (get_page_soup_other_exception _ _ _ _ H) in Hfetch by done; done).
    rewrite (get_page_soup_request_exception _ _ _ _ H) in *.
    injection Hfetch as <-. rewrite !write_log_eq. simpl.
    do 3 eexists. split; [|split; [eexists; reflexivity | reflexivity]].
    rewrite <- !app_assoc. simpl. reflexivity.
Qed.

Lemma base_page_fetched_logged_offline :
  exists fetch_lines timestamp_str rest,
    trace (snd (get_books (world_of []) (init 2021 None (Some "log.txt"%string)) fresh)) =
      trace fresh ++ [Opened "log.txt"; Requested index_2021] ++ fetch_lines
              ++ [Wrote "log.txt" (log_line timestamp_str "Base page fetched")] ++ rest /\
    (exists t, fetch_lines =
               [Wrote "log.txt" (log_line t "Failed getting URL : {url} ; Error : {exp}")]) /\
    fst (get_books (world_of []) (init 2021 None (Some "log.txt"%string)) fresh) =
      Raise no_findAll.
Proof.
  apply (base_page_fetched_logged (world_of []) (init 2021 None (Some "log.txt"%string))
           "log.txt" fresh None); [reflexivity | discriminate | reflexivity].
Defined.

(** ** The fetcher, case by case *)

Lemma get_page_soup_cases (w : world) (url : string) (s : state) :
  get_page_soup w url s =
  match http_get w url with
  | Response _ body => (Return (Some body), emit (Requested url) s)
  | Failure (RequestException _) =>
      (Return None,
       match log_file s with
       | Some f =>
           emit (Wrote f (log_line (now w (length (trace s ++ [Requested url])))
                                   "Failed getting URL : {url} ; Error : {exp}"))
                (emit (Requested url) s)
       | None => emit (Requested url) s
       end)
  | Failure e => (Raise e, emit (Requested url) s)
  end.
Proof.
  destruct (http_get w url) as [status body | e] eqn:H.
  - by apply get_page_soup_response with status.
  - destruct e; try (by apply get_page_soup_other_exception).
    rewrite (get_page_soup_request_exception _ _ _ _ H), write_log_eq. reflexivity.
Qed.

(** The failed fetch of the index page of 2021, with the log file open (claim
    C4, at the failing input): the fetcher returns [None] and writes one line,
    and that line is the text of the source's string literal, placeholders
    included; it holds neither the URL nor the error. *)
Theorem get_page_soup_failure_message :
  let line := log_line "2021-06-01 12:00:00" "Failed getting URL : {url} ; Error : {exp}" in
  http_get (world_of []) index_2021 = Failure (RequestException "ConnectionError") /\
  get_page_soup (world_of []) index_2021 (logging "log.txt") =
    (Return None,
     {| log_file := Some "log.txt"%string;
        trace := [Requested index_2021; Wrote "log.txt" line] |}) /\
  contains index_2021 line = false /\
  contains "ConnectionError" line = false.
Proof. vm_compute. repeat split. Qed.

(** A response is passed on as a parsed page whatever its status code. *)
Lemma get_page_soup_404 (page : document) (w : world) (url : string) (s : state) :
  http_get w url = Response 404 page ->
  get_page_soup w url s = (Return (Some page), emit (Requested url) s).
Proof. apply get_page_soup_response. Qed.

(** ** The two list comprehensions *)

Lemma href_Return (a : anchor) (h : string) : attrs a !! "href"%string = Some h -> href a = Return h.
Proof. unfold href. by intros ->. Qed.

Lemma href_Raise (a : anchor) : attrs a !! "href"%string = None -> href a = Raise (KeyError "href").
Proof. unfold href. by intros ->. Qed.

Lemma all_href_cons (a : anchor) (page : document) :
  all_href (a :: page) <-> is_Some (attrs a !! "href"%string) /\ all_href page.
Proof.
  unfold all_href. split.
  - intros H. split; [apply H; left | intros b Hb; apply H; by right].
  - intros [Ha H] b Hb. apply elem_of_cons in Hb as [-> | Hb]; auto.
Qed.

Lemma episode_hrefs_missing_href (page : document) :
  (exists a, a ∈ page /\ attrs a !! "href"%string = None) ->
  episode_hrefs page = Raise (KeyError "href").
Proof.
  induction page as [|b page IH]; intros (a & Ha & Hnone).
  - by apply elem_of_nil in Ha.
  - simpl. destruct (attrs b !! "href"%string) as [h|] eqn:Hb.
    + rewrite (href_Return _ _ Hb).
      apply elem_of_cons in Ha as [-> | Ha]; [congruence|].
      rewrite IH by eauto. by destruct (is_episode_url h).
    + by rewrite (href_Raise _ Hb).
Qed.

Lemma episode_hrefs_Return (page : document) (hrefs : list string) :
  episode_hrefs page = Return hrefs ->
  all_href page /\
  forall h, h ∈ hrefs <->
            exists a, a ∈ page /\ attrs a !! "href"%string = Some h /\ is_episode_url h = true.
Proof.
  revert hrefs. induction page as [|b page IH]; intros hrefs; simpl.
  - intros [= <-]. split; [by intros a Ha%elem_of_nil|].
    intros h. split; [by intros ?%elem_of_nil | by intros (a & ?%elem_of_nil & _)].
  - destruct (attrs b !! "href"%string) as [hb|] eqn:Hb;
      [rewrite (href_Return _ _ Hb) | by rewrite (href_Raise _ Hb)].
    destruct (is_episode_url hb) eqn:Eb.
    + destruct (episode_hrefs page) as [hs|e]; [|done]. intros [= <-].
      destruct (IH hs eq_refl) as [Hall Hmem]. split; [apply all_href_cons; eauto|].
      intros h. rewrite elem_of_cons, Hmem. split.
      * intros [-> | (a & Ha & ? & ?)]; [exists b | exists a]; repeat split; auto;
          [left | by right].
      * intros (a & Ha & Hah & Hh). apply elem_of_cons in Ha as [-> | Ha];
          [left; congruence | right; eauto].
    + intros H. destruct (IH hrefs H) as [Hall Hmem]. split; [apply all_href_cons; eauto|].
      intros h. rewrite Hmem. split.
      * intros (a & Ha & ? & ?). exists a. repeat split; auto. by right.
      * intros (a & Ha & Hah & Hh). apply elem_of_cons in Ha as [-> | Ha]; [congruence | eauto].
Qed.

Lemma episode_hrefs_none_matching (page : document) :
  all_href page -> no_href_satisfies is_episode_url page -> episode_hrefs page = Return [].
Proof.
  induction page as [|b page IH]; [done|]. intros Hall Hno. simpl.
  apply all_href_cons in Hall as [[h Hb] Hall]. rewrite (href_Return _ _ Hb).
  rewrite (Hno b h) by (done || left). apply IH; [done|].
  intros a h' Ha. apply Hno. by right.
Qed.

Lemma target_texts_none_matching (page : document) :
  all_href page -> no_href_satisfies is_target_url page -> target_texts page = Return [].
Proof.
  induction page as [|b page IH]; [done|]. intros Hall Hno. simpl.
  apply all_href_cons in Hall as [[h Hb] Hall]. rewrite (href_Return _ _ Hb).
  rewrite (Hno b h) by (done || left). apply IH; [done|].
  intros a h' Ha. apply Hno. by right.
Qed.

Lemma target_texts_Return (page : document) (texts : list string) :
  target_texts page = Return texts ->
  all_href page /\
  (texts <> [] ->
   exists a h, a ∈ page /\ attrs a !! "href"%string = Some h /\ is_target_url h = true).
Proof.
  revert texts. induction page as [|b page IH]; intros texts; simpl.
  - intros [= <-]. split; [by intros a Ha%elem_of_nil | done].
  - destruct (attrs b !! "href"%string) as [hb|] eqn:Hb;
      [rewrite (href_Return _ _ Hb) | by rewrite (href_Raise _ Hb)].
    destruct (is_target_url hb) eqn:Eb.
    + destruct (contents b) as [|text ?]; [done|].
      destruct (target_texts page) as [ts|e]; [|done]. intros [= <-].
      destruct (IH ts eq_refl) as [Hall _]. split; [apply all_href_cons; eauto|].
      intros _. exists b, hb. repeat split; auto. left.
    + intros H. destruct (IH texts H) as [Hall Hex]. split; [apply all_href_cons; eauto|].
      intros Hne. destruct (Hex Hne) as (a & h & Ha & ? & ?). exists a, h.
      repeat split; auto. by right.
Qed.

(** The first anchor without [href], no retailer link before it being
    without children: reading its [href] is the error of the comprehension. *)
Lemma target_texts_KeyError (before : document) (a : anchor) (after : document) :
  attrs a !! "href"%string = None ->
  (forall b, b ∈ before ->
             exists h, attrs b !! "href"%string = Some h /\
                       (is_target_url h = true -> contents b <> [])) ->
  target_texts (before ++ a :: after) = Raise (KeyError "href").
Proof.
  intros Ha. induction before as [|b before IH]; intros Hb; simpl.
  - by rewrite (href_Raise _ Ha).
  - destruct (Hb b) as (h & Hh & Hc); [left|]. rewrite (href_Return _ _ Hh).
    rewrite IH by (intros b' Hb'; apply Hb; by right).
    destruct (is_target_url h); [|done]. destruct (contents b); [by destruct Hc | done].
Qed.

(** ** One episode *)

Lemma scrape_episode_eq (w : world) (ep_url : string) (df_list : list frame) (s : state) :
  scrape_episode w ep_url df_list s =
  match get_page_soup w ep_url s with
  | (Raise e, s1) => (Raise e, s1)
  | (Return None, s1) => (Return df_list, s1)
  | (Return (Some page), s1) =>
      let s2 := snd (write_log w ("Episode fetched : " ++ ep_url)%string s1) in
      match target_texts page with
      | Raise e => (Raise e, s2)
      | Return amazon_books =>
          if (length amazon_books =? 0)%nat then (Return df_list, s2)
          else
            match get_episode_info ep_url with
            | Raise e => (Raise e, s2)
            | Return None => (Raise TypeError, s2)
            | Return (Some (ep_num, _)) =>
                match episode_frame ep_num amazon_books with
                | Return df_ep_books => (Return (df_list ++ [df_ep_books]), s2)
                | Raise e => (Raise e, s2)
                end
            end
      end
  end.
Proof.
  unfold scrape_episode, bind.
  destruct (get_page_soup w ep_url s) as [[[page|]|e] s1]; try done.
  rewrite write_log_eq. cbn [fst snd]. unfold lift.
  destruct (target_texts page) as [amazon_books|e]; [|done].
  destruct (length amazon_books =? 0)%nat; [done|].
  by destruct (get_episode_info ep_url) as [[[ep_num d]|]|e].
Qed.

Lemma for_each_episode_cons (w : world) (self : scraper) u rest df_list (s : state) :
  for_each_episode w self (u :: rest) df_list s =
  match delay self s with
  | (Return _, s1) =>
      match scrape_episode w u df_list s1 with
      | (Return df_list', s2) => for_each_episode w self rest df_list' s2
      | (Raise e, s2) => (Raise e, s2)
      end
  | (Raise e, s1) => (Raise e, s1)
  end.
Proof.
  simpl. unfold bind. destruct (delay self s) as [[[]|e] s1]; [|done].
  by destruct (scrape_episode w u df_list s1) as [[df'|e] s2].
Qed.

(** What an episode that did not raise has done to [df_list]. *)
Lemma scrape_episode_Return (w : world) (u : string) df_list (s : state) df_list' s' :
  scrape_episode w u df_list s = (Return df_list', s') ->
  (forall status page, http_get w u = Response status page -> all_href page) /\
  ((produces_rows w u = false /\ df_list' = df_list) \/
   (produces_rows w u = true /\ exists df_ep_books, df_list' = df_list ++ [df_ep_books])).
Proof.
  rewrite scrape_episode_eq, get_page_soup_cases. unfold produces_rows.
  destruct (http_get w u) as [status page | e].
  - cbn [fst snd]. destruct (target_texts page) as [amazon_books|e] eqn:E; [|done].
    destruct (target_texts_Return _ _ E) as [Hall _].
    destruct amazon_books as [|b bs].
    + intros [= <- _]. split; [by intros ? ? [= _ <-] | by left].
    + cbn [length Nat.eqb].
      destruct (get_episode_info u) as [[[ep_num d]|]|e]; try done.
      destruct (episode_frame ep_num (b :: bs)) as [f|e]; [|done].
      intros [= <- _]. split; [by intros ? ? [= _ <-] | right; eauto].
  - destruct e; try done. intros [= <- _]. split; [done | by left].
Qed.

Lemma for_each_episode_Return (w : world) (self : scraper) ep_urls df_list (s : state)
    df_list' s' :
  for_each_episode w self ep_urls df_list s = (Return df_list', s') ->
  (forall u status page, u ∈ ep_urls -> http_get w u = Response status page -> all_href page) /\
  exists frames,
    df_list' = df_list ++ frames /\
    (frames = [] <-> forall u, u ∈ ep_urls -> produces_rows w u = false).
Proof.
  revert df_list s. induction ep_urls as [|u rest IH]; intros df_list s.
  - intros [= <- _]. split; [by intros ? ? ? ?%elem_of_nil|].
    exists []. rewrite app_nil_r. split; [done|]. split; [by intros _ ? ?%elem_of_nil | done].
  - rewrite for_each_episode_cons. destruct (delay self s) as [[[]|e] s1]; [|done].
    destruct (scrape_episode w u df_list s1) as [[df1|e] s2] eqn:E; [|done].
    intros H. apply IH in H as (Hall & frames & -> & Hframes).
    apply scrape_episode_Return in E as [Hu Hrows]. split.
    + intros u' status page Hin. apply elem_of_cons in Hin as [-> | Hin]; eauto.
    + destruct Hrows as [[Hno ->] | [Hyes [f ->]]].
      * exists frames. split; [done|]. rewrite Hframes. split.
        -- intros H u' Hin. apply elem_of_cons in Hin as [-> | Hin]; auto.
        -- intros H u' Hin. apply H. by right.
      * exists (f :: frames). rewrite <- app_assoc. split; [done|]. split; [done|].
        intros H. rewrite H in Hyes; [done | left].
Qed.

Lemma set_iter_elem (w : world) (hrefs : list string) (u : string) :
  iterates_sets w -> u ∈ set_iter w (list_to_set hrefs) <-> u ∈ hrefs.
Proof. intros Hw. rewrite (Hw _), elem_of_elements. apply elem_of_list_to_set. Qed.

Lemma set_iter_empty (w : world) : iterates_sets w -> set_iter w (list_to_set []) = [].
Proof.
  intros Hw. apply Permutation_nil_r. rewrite (Hw _). simpl. by rewrite elements_empty.
Qed.

Lemma world_of_iterates_sets (pages : list (string * document)) :
  iterates_sets (world_of pages).
Proof. by intros X. Qed.

(** ** The result of [get_books] *)

Lemma collect_books_Return (w : world) (self : scraper) (page : document) (s : state)
    (result : option frame) :
  iterates_sets w ->
  fst (collect_books w self (Some page) s) = Return result ->
  all_href page /\
  (forall a h status ep_page,
      a ∈ page -> attrs a !! "href"%string = Some h -> is_episode_url h = true ->
      http_get w h = Response status ep_page -> all_href ep_page) /\
  (result = None <->
   forall a h, a ∈ page -> attrs a !! "href"%string = Some h -> is_episode_url h = true ->
               produces_rows w h = false).
Proof.
  intros Hw. unfold collect_books, bind, lift.
  destruct (episode_hrefs page) as [hrefs|e] eqn:Eh; [|done].
  destruct (episode_hrefs_Return _ _ Eh) as [Hall Hmem].
  destruct (for_each_episode w self _ [] s) as [[df_list|e] s1] eqn:El; [|done].
  apply for_each_episode_Return in El as (Hpages & frames & -> & Hframes).
  intros Hres. split; [done|]. split.
  - intros a h status ep_page Ha Hh He. apply Hpages.
    apply set_iter_elem; [done|]. apply Hmem. eauto.
  - assert (result = None <-> frames = []) as ->.
    { simpl in Hres. destruct frames; simpl in Hres; injection Hres as <-; done. }
    rewrite Hframes. split.
    + intros H a h Ha Hh He. apply H, set_iter_elem; [done|]. apply Hmem. eauto.
    + intros H u Hu. apply set_iter_elem in Hu; [|done].
      apply Hmem in Hu as (a & Ha & Hh & He). eauto.
Qed.

Lemma get_books_fetched (w : world) (self : scraper) (s : state) status page :
  http_get w (base_url_year self) = Response status page ->
  fst (get_books w self s) =
  fst (collect_books w self (Some page)
         (snd (write_log w "Base page fetched"
                 (emit (Requested (base_url_year self)) (snd (open_log self s)))))).
Proof.
  intros H. rewrite get_books_eq, get_books_as_dataframe_eq.
  by rewrite (get_page_soup_response _ _ _ _ _ H).
Qed.

(** When [None] is returned (claim C5, as amended).  With the index page
    fetched, an invocation of [get_books] that returns returns [None] exactly
    when no episode linked from the index page produces rows.  In particular,
    for an index page whose anchors all carry an [href], none of them
    matching the episode template: the result is [None], the index page is
    the only page requested, and the only line written is one
    [Base page fetched] line - when a log path is configured; without one,
    nothing is written. *)
Theorem get_books_None_iff_no_rows (w : world) (self : scraper) (s : state)
    (status : nat) (page : document) :
  iterates_sets w ->
  http_get w (base_url_year self) = Response status page ->
  (forall result,
      fst (get_books w self s) = Return result ->
      (result = None <->
       forall a h, a ∈ page -> attrs a !! "href"%string = Some h -> is_episode_url h = true ->
                   produces_rows w h = false)) /\
  (all_href page -> no_href_satisfies is_episode_url page ->
   fst (get_books w self s) = Return None /\
   match truthy_path (log_filepath self) with
   | Some path =>
       exists timestamp_str,
         trace (snd (get_books w self s)) =
         trace s ++ [Opened path; Requested (base_url_year self);
                     Wrote path (log_line timestamp_str "Base page fetched");
                     Closed path]
   | None => trace (snd (get_books w self s)) = trace s ++ [Requested (base_url_year self)]
   end).
Proof.
  intros Hw H. split.
  - intros result. rewrite (get_books_fetched _ _ _ _ _ H). intros Hres.
    by apply collect_books_Return in Hres as (_ & _ & Hres).
  - intros Hall Hno. rewrite get_books_eq, get_books_as_dataframe_eq.
    rewrite (get_page_soup_response _ _ _ _ _ H), write_log_eq.
    unfold collect_books, bind, lift.
    rewrite (episode_hrefs_none_matching _ Hall Hno), (set_iter_empty _ Hw).
    unfold open_log. destruct (truthy_path (log_filepath self)) as [path|]; simpl.
    + split; [done|]. eexists. rewrite <- !app_assoc. reflexivity.
    + done.
Qed.

Lemma get_books_empty_index :
  fst (get_books empty_index (init 2021 None (Some "log.txt"%string)) fresh) = Return None /\
  exists timestamp_str,
    trace (snd (get_books empty_index (init 2021 None (Some "log.txt"%string)) fresh)) =
    trace fresh ++ [Opened "log.txt"; Requested index_2021;
                    Wrote "log.txt" (log_line timestamp_str "Base page fetched");
                    Closed "log.txt"].
Proof.
  apply (get_books_None_iff_no_rows empty_index (init 2021 None (Some "log.txt"%string))
           fresh 200 []).
  - apply world_of_iterates_sets.
  - reflexivity.
  - by intros a Ha%elem_of_nil.
  - by intros a h Ha%elem_of_nil.
Defined.

(** Two invocations with the index page fetched and no anchor matching the
    episode template.  Without a log path, [None] is returned and no line is
    written at all; with an anchor that has no [href], no episode produces
    rows and yet the invocation raises instead of returning [None]. *)
Lemma get_books_no_line_or_no_result :
  (http_get empty_index index_2021 = Response 200 [] /\
   get_books empty_index (init 2021 None None) fresh =
     (Return None, {| log_file := None; trace := [Requested index_2021] |})) /\
  (http_get bare_index index_2021 = Response 200 [bare_anchor] /\
   no_href_satisfies is_episode_url [bare_anchor] /\
   get_books bare_index (init 2021 None (Some "log.txt"%string)) fresh =
     (Raise (KeyError "href"),
      {| log_file := None;
         trace := [Opened "log.txt"; Requested index_2021;
                   Wrote "log.txt" (log_line "2021-06-01 12:00:00" "Base page fetched");
                   Closed "log.txt"] |})).
Proof.
  split; [split; vm_compute; reflexivity|]. split; [vm_compute; reflexivity|]. split.
  - intros a h Ha Hh. apply list_elem_of_singleton in Ha as ->. done.
  - vm_compute. reflexivity.
Qed.

(** ** Episodes without rows *)

(** Skipped episodes (claim C6, as amended).  If the fetch of an episode page
    returns [None], or returns a page whose anchors all carry an [href] none
    of which satisfies [__is_target_url], the episode leaves [df_list] as it
    is and raises nothing, and the loop goes on with the remaining URLs.  An
    episode changes [df_list] only by appending one frame, and only when its
    page holds an anchor whose [href] satisfies [__is_target_url]; the frame
    carries the episode number extracted from the URL. *)
Theorem episode_skipped_or_emitted (w : world) (self : scraper) (ep_url : string)
    (rest : list string) (df_list : list frame) (s1 : state) :
  (fst (get_page_soup w ep_url s1) = Return None \/
   (exists page, fst (get_page_soup w ep_url s1) = Return (Some page) /\
                 all_href page /\ no_href_satisfies is_target_url page) ->
   exists s2,
     scrape_episode w ep_url df_list s1 = (Return df_list, s2) /\
     forall s, delay self s = (Return tt, s1) ->
               for_each_episode w self (ep_url :: rest) df_list s =
               for_each_episode w self rest df_list s2) /\
  (forall df_list' s2,
      scrape_episode w ep_url df_list s1 = (Return df_list', s2) ->
      df_list' <> df_list ->
      exists page a h amazon_books ep_num ep_date,
        fst (get_page_soup w ep_url s1) = Return (Some page) /\
        a ∈ page /\ attrs a !! "href"%string = Some h /\ is_target_url h = true /\
        target_texts page = Return amazon_books /\
        get_episode_info ep_url = Return (Some (ep_num, ep_date)) /\
        df_list' = df_list ++ [map (fun book => (ep_num, book)) amazon_books]).
Proof.
  split.
  - intros Hskip.
    assert (exists s2, scrape_episode w ep_url df_list s1 = (Return df_list, s2)) as [s2 E].
    { rewrite scrape_episode_eq.
      destruct Hskip as [Hnone | (page & Hpage & Hall & Hno)].
      - destruct (get_page_soup w ep_url s1) as [r s2]. simpl in Hnone. subst r. eauto.
      - destruct (get_page_soup w ep_url s1) as [r s2]. simpl in Hpage. subst r.
        rewrite (target_texts_none_matching _ Hall Hno). simpl. eauto. }
    exists s2. split; [done|]. intros s Hdelay.
    by rewrite for_each_episode_cons, Hdelay, E.
  - intros df_list' s2. rewrite scrape_episode_eq.
    destruct (get_page_soup w ep_url s1) as [[[page|]|e] s1']; [| by intros [= <- _] | done].
    cbn [fst snd]. destruct (target_texts page) as [amazon_books|e] eqn:Et; [|done].
    destruct (length amazon_books =? 0)%nat eqn:El; [by intros [= <- _]|].
    destruct (get_episode_info ep_url) as [[[ep_num ep_date]|]|e]; try done.
    unfold episode_frame. destruct (ep_num <? 2 ^ 63); [|done].
    intros [= <- _] _.
    destruct (target_texts_Return _ _ Et) as [_ Hex].
    destruct Hex as (a & h & Ha & Hh & Ht); [by destruct amazon_books|].
    exists page, a, h, amazon_books, ep_num, ep_date. by repeat split.
Qed.

Lemma episode_skipped_offline :
  exists s2,
    scrape_episode (world_of []) episode_206 [] fresh = (Return [], s2) /\
    forall s, delay (init 2021 None None) s = (Return tt, fresh) ->
              for_each_episode (world_of []) (init 2021 None None) [episode_206; index_2021] [] s =
              for_each_episode (world_of []) (init 2021 None None) [index_2021] [] s2.
Proof.
  apply (episode_skipped_or_emitted (world_of []) (init 2021 None None) episode_206
           [index_2021] [] fresh).
  left. reflexivity.
Defined.

(** An episode page without any anchor whose [href] satisfies the retailer
    pattern - its only anchor has no [href] - on which the episode raises. *)
Lemma scrape_episode_bare_anchor :
  fst (get_page_soup bare_episode episode_206 fresh) = Return (Some [bare_anchor]) /\
  no_href_satisfies is_target_url [bare_anchor] /\
  fst (scrape_episode bare_episode episode_206 [] fresh) = Raise (KeyError "href") /\
  fst (get_books bare_episode (init 2021 None None) fresh) = Raise (KeyError "href").
Proof.
  split; [vm_compute; reflexivity|]. split; [|split; vm_compute; reflexivity].
  intros a h Ha Hh. apply list_elem_of_singleton in Ha as ->. done.
Qed.

(** ** Anchors without [href] *)

Lemma scrape_episode_KeyError (w : world) (u : string) df_list (s : state) status
    (before : document) (a : anchor) (after : document) :
  http_get w u = Response status (before ++ a :: after) ->
  attrs a !! "href"%string = None ->
  (forall b, b ∈ before ->
             exists h, attrs b !! "href"%string = Some h /\
                       (is_target_url h = true -> contents b <> [])) ->
  fst (scrape_episode w u df_list s) = Raise (KeyError "href").
Proof.
  intros H Ha Hb. rewrite scrape_episode_eq, (get_page_soup_response _ _ _ _ _ H).
  cbn [fst snd]. by rewrite (target_texts_KeyError _ _ _ Ha Hb).
Qed.

(** Anchors without [href] (claim C9).  With the index page fetched: if one
    of its anchors has no [href], [get_books] raises [KeyError] on reading
    [a['href']]; and an invocation that returns has found an [href] on every
    anchor of the index page and of every episode page it was answered with.
    On an episode page the error raised is that [KeyError] as soon as an
    anchor without [href] is reached, that is, unless an earlier retailer
    link of the page has no children. *)
Theorem missing_href_raises (w : world) (self : scraper) (s : state)
    (status : nat) (page : document) :
  http_get w (base_url_year self) = Response status page ->
  ((exists a, a ∈ page /\ attrs a !! "href"%string = None) ->
   fst (get_books w self s) = Raise (KeyError "href")) /\
  (iterates_sets w -> returns (fst (get_books w self s)) = true ->
   all_href page /\
   forall a h ep_status ep_page,
     a ∈ page -> attrs a !! "href"%string = Some h -> is_episode_url h = true ->
     http_get w h = Response ep_status ep_page -> all_href ep_page) /\
  (forall ep_url df_list s1 ep_status before a after,
      http_get w ep_url = Response ep_status (before ++ a :: after) ->
      attrs a !! "href"%string = None ->
      (forall b, b ∈ before ->
                 exists h, attrs b !! "href"%string = Some h /\
                           (is_target_url h = true -> contents b <> [])) ->
      fst (scrape_episode w ep_url df_list s1) = Raise (KeyError "href")).
Proof.
  intros H. split; [|split].
  - intros Hmissing. rewrite (get_books_fetched _ _ _ _ _ H).
    unfold collect_books, bind, lift. by rewrite (episode_hrefs_missing_href _ Hmissing).
  - intros Hw. rewrite (get_books_fetched _ _ _ _ _ H).
    match goal with |- context [fst ?x] => destruct (fst x) as [result|e] eqn:E end; [|done].
    intros _. by apply collect_books_Return in E as (Hall & Hpages & _).
  - intros ep_url df_list s1 ep_status before a after. apply scrape_episode_KeyError.
Qed.

Lemma missing_href_bare_index :
  fst (get_books bare_index (init 2021 None None) fresh) = Raise (KeyError "href").
Proof.
  apply (missing_href_raises bare_index (init 2021 None None) fresh 200 [bare_anchor]).
  - reflexivity.
  - exists bare_anchor. split; [left | reflexivity].
Defined.

(** ** The scraper on small sites *)

(** One episode page with a retailer link and another link: one row. *)
Example get_books_one_book :
  get_books one_book (init 2021 None (Some "log.txt"%string)) fresh =
  (Return (Some [(206, "Thinking, Fast and Slow"%string)]),
   {| log_file := None;
      trace := [Opened "log.txt"; Requested index_2021;
                Wrote "log.txt" (log_line "2021-06-01 12:00:00" "Base page fetched");
                Requested episode_206;
                Wrote "log.txt" (log_line "2021-06-01 12:00:00"
                                          ("Episode fetched : " ++ episode_206)%string);
                Closed "log.txt"] |}).
Proof. vm_compute. reflexivity. Qed.

(** A negative delay makes [time.sleep] raise before the first episode is
    fetched. *)
Example get_books_negative_delay :
  fst (get_books one_book (init 2021 (Some (-1)) None) fresh) = Raise ValueError.
Proof. vm_compute. reflexivity. Qed.

Example is_target_url_examples :
  is_target_url "http://amazon.com" = true /\
  is_target_url "https://www.amazon.co.uk/x?y=1" = true /\
  is_target_url "https://amazon.0com" = false /\
  is_target_url "https://amazon.-com" = false /\
  is_target_url "https://smile.amazon.com" = false /\
  is_target_url "ftp://amazon.com" = false.
Proof. vm_compute. repeat split. Qed.

Example is_episode_url_examples :
  is_episode_url episode_206 = true /\
  is_episode_url index_2021 = false /\
  is_episode_url "ftp://seenunseen.in/episodes/2021/1/4/episode-206-x" = false /\
  is_episode_url "https://seenunseen.in/episodes/2021/1/4/206-x" = false /\
  is_episode_url "https://seenunseen.in/episodes/2021/1/4/episode-206-" = false.
Proof. vm_compute. repeat split. Qed.

(** * Further properties *)

(** ** The episode classifier, exactly *)

Lemma numeral_of_run (x : ascii) (xs : list ascii) :
  is_digit x = true -> forallb is_digit xs = true ->
  numeral (string_of_list_ascii (x :: xs)) = true.
Proof.
  intros Hx Hxs. unfold numeral, all_of. rewrite chars_of_list. simpl. by rewrite Hx, Hxs.
Qed.

Lemma run_group_then_lit_inv i (c : ascii) (l : string) r (k : Re.cont) s g m :
  is_digit c = false ->
  Re.run (Re.Cat (Re.Group i digits_re) (lit_seq (String c l) r)) k s g = Some m ->
  exists t rest,
    numeral t = true /\ s = chars t ++ chars (String c l) ++ rest /\
    Re.run r k rest ((i, chars t) :: g) = Some m.
Proof.
  intros Hc. rewrite run_cat, run_group_digits by (by apply rejects_lit_seq).
  destruct s as [|x s]; [done|]. destruct (is_digit x) eqn:Hx; [|done].
  rewrite run_lit_seq.
  destruct (strip_prefix _ (skip_while is_digit s)) as [rest|] eqn:E; [|done].
  apply strip_prefix_Some in E. intros H.
  exists (string_of_list_ascii (x :: take_while is_digit s)), rest.
  rewrite chars_of_list. split; [|split; [|done]].
  - apply numeral_of_run; [done | apply take_while_all].
  - rewrite <- E, <- app_comm_cons. f_equal. symmetry. apply take_skip_while.
Qed.

Lemma exec_episode_url_inv (url : string) m :
  Re.exec ep_url_re url = Some m ->
  exists scheme sep Y M D N slug,
    url = episode_url scheme sep Y M D N slug /\
    is_scheme scheme = true /\ sep <> newline /\
    numeral Y = true /\ numeral M = true /\ numeral D = true /\ numeral N = true /\
    slug_ok slug = true.
Proof.
  unfold Re.exec. destruct (Re.run _ _ _ _) as [g|] eqn:H; [|done]. intros _.
  unfold ep_url_re in H. apply run_scheme_inv in H as (scheme & s1 & Hs & Hurl & H).
  rewrite run_lit_seq in H. destruct (strip_prefix _ s1) as [s2|] eqn:E1; [|done].
  apply strip_prefix_Some in E1 as ->.
  rewrite run_cat, run_dot in H. destruct s2 as [|sep s3]; [done|].
  destruct (Ascii.eqb_spec sep newline) as [|Hsep]; [done|].
  rewrite run_lit_seq in H. destruct (strip_prefix _ s3) as [s4|] eqn:E2; [|done].
  apply strip_prefix_Some in E2 as ->.
  apply run_group_then_lit_inv in H as (Y & s5 & HY & -> & H); [|done].
  apply run_group_then_lit_inv in H as (M & s6 & HM & -> & H); [|done].
  apply run_group_then_lit_inv in H as (D & s7 & HD & -> & H); [|done].
  apply run_group_then_lit_inv in H as (N & s8 & HN & -> & H); [|done].
  rewrite run_plus_dot_accept in H. destruct s8 as [|x s8]; [done|].
  destruct (Ascii.eqb x newline) eqn:Hx; [done|].
  exists scheme, sep, Y, M, D, N, (string_of_list_ascii (x :: s8)).
  repeat split; try done.
  - apply chars_inj. unfold episode_url.
    rewrite !chars_app, (chars_cons sep), chars_of_list, Hurl, <- app_comm_cons. reflexivity.
  - simpl. by rewrite Hx.
Qed.

Lemma is_episode_url_exec (url : string) :
  is_episode_url url = match Re.exec ep_url_re url with Some _ => true | None => false end.
Proof. unfold is_episode_url. by rewrite re_match_ep_url. Qed.

(** The URLs on which [re.match(ep_url_pattern, url)] succeeds. *)
Lemma is_episode_url_shape (url : string) :
  is_episode_url url = true <->
  exists scheme sep Y M D N slug,
    url = episode_url scheme sep Y M D N slug /\
    is_scheme scheme = true /\ sep <> newline /\
    numeral Y = true /\ numeral M = true /\ numeral D = true /\ numeral N = true /\
    slug_ok slug = true.
Proof.
  rewrite is_episode_url_exec. split.
  - destruct (Re.exec ep_url_re url) as [m|] eqn:E; [|done]. intros _.
    by apply exec_episode_url_inv in E.
  - intros (scheme & sep & Y & M & D & N & slug & -> & ? & ? & ? & ? & ? & ? & ?).
    by rewrite exec_episode_url.
Qed.

(** [__is_episode_url] accepts exactly the URLs made of [http] or [https],
    [://seenunseen], one character other than a newline, [in/episodes/],
    three numerals separated by slashes, [/episode-], a numeral, a hyphen and
    a text that begins with a character other than a newline. *)
Theorem is_episode_url_iff_template (url : string) :
  is_episode_url url = true <->
  exists scheme sep Y M D N slug,
    url = episode_url scheme sep Y M D N slug /\
    is_scheme scheme = true /\ sep <> newline /\
    numeral Y = true /\ numeral M = true /\ numeral D = true /\ numeral N = true /\
    slug_ok slug = true.
Proof. apply is_episode_url_shape. Qed.

(** ** Prefix matching *)

Lemma string_app_assoc (a b c : string) : ((a ++ b) ++ c = a ++ b ++ c)%string.
Proof. apply chars_inj. by rewrite !chars_app, app_assoc. Qed.

Lemma episode_url_app scheme sep Y M D N slug (v : string) :
  (episode_url scheme sep Y M D N slug ++ v)%string =
  episode_url scheme sep Y M D N (slug ++ v)%string.
Proof.
  apply chars_inj. unfold episode_url. rewrite !chars_app, (chars_cons sep).
  by rewrite <- !app_assoc.
Qed.

Lemma target_url_app scheme sub sep l rest (v : string) :
  (target_url scheme sub sep l rest ++ v)%string =
  target_url scheme sub sep l (rest ++ v)%string.
Proof.
  apply chars_inj. unfold target_url. rewrite !chars_app, !chars_cons, !chars_app.
  by rewrite <- !app_assoc.
Qed.

(** Whatever is appended to a URL that [__is_episode_url] accepts - a path,
    a query, a fragment - the result is accepted too: the classifier looks at
    a prefix only. *)
Theorem is_episode_url_extend (url v : string) :
  is_episode_url url = true -> is_episode_url (url ++ v)%string = true.
Proof.
  intros H. apply is_episode_url_shape in H
    as (scheme & sep & Y & M & D & N & slug & -> & ? & ? & ? & ? & ? & ? & Hslug).
  rewrite episode_url_app. apply is_episode_url_shape.
  exists scheme, sep, Y, M, D, N, (slug ++ v)%string. repeat split; try done.
  by destruct slug.
Qed.

Lemma is_episode_url_extend_206 :
  is_episode_url (episode_206 ++ "?utm_source=feed")%string = true.
Proof. apply (is_episode_url_extend episode_206 "?utm_source=feed"). reflexivity. Defined.

(** Whatever is appended to a URL that [__is_target_url] accepts, the result
    is accepted too. *)
Theorem is_target_url_extend (url v : string) :
  is_target_url url = true -> is_target_url (url ++ v)%string = true.
Proof.
  intros H. apply is_target_url_spec in H as (scheme & sub & sep & l & rest & -> & ? & ? & ? & ?).
  rewrite target_url_app. apply is_target_url_spec.
  by exists scheme, sub, sep, l, (rest ++ v)%string.
Qed.

Lemma is_target_url_extend_amazon :
  is_target_url ("https://www.amazon.in" ++ "/dp/0141033576?tag=x")%string = true.
Proof.
  apply (is_target_url_extend "https://www.amazon.in" "/dp/0141033576?tag=x"). reflexivity.
Defined.

(** ** The two classifiers never agree *)

Lemma scheme_prefix_eq (scheme scheme' : string) (a b : list ascii) :
  is_scheme scheme = true -> is_scheme scheme' = true ->
  chars scheme ++ ":"%char :: a = chars scheme' ++ ":"%char :: b ->
  scheme = scheme' /\ a = b.
Proof.
  intros Hs Hs' E.
  destruct (is_scheme_cases _ Hs) as [-> | ->], (is_scheme_cases _ Hs') as [-> | ->];
    cbn [chars list_ascii_of_string app] in E; try done; by simplify_eq.
Qed.

(** No URL is both an episode URL and a retailer link: a link from one
    episode page to another episode is never taken for a book. *)
Theorem episode_url_not_target (url : string) :
  is_episode_url url = true -> is_target_url url = false.
Proof.
  intros He. destruct (is_target_url url) eqn:Ht; [|done]. exfalso.
  apply is_episode_url_shape in He
    as (scheme & sep & Y & M & D & N & slug & -> & Hs & _).
  apply is_target_url_spec in Ht
    as (scheme' & sub & sep' & l & rest & E & Hs' & Hsub & _).
  apply (f_equal chars) in E. unfold episode_url, target_url in E.
  rewrite !chars_app in E.
  change (chars "://seenunseen" ++ ?t) with (":"%char :: chars "//seenunseen" ++ t) in E.
  change (chars "://" ++ ?t) with (":"%char :: chars "//" ++ t) in E.
  apply scheme_prefix_eq in E as [_ E]; [|done..].
  change (chars "//seenunseen" ++ ?t) with (chars "//" ++ "s"%char :: chars "eenunseen" ++ t) in E.
  apply app_inv_head in E.
  change (chars "amazon" ++ ?t) with ("a"%char :: (chars "mazon" ++ t)) in E.
  apply (f_equal (skip_while is_w_or_dot)) in E.
  rewrite skip_while_stop in E by done. simpl in E. done.
Qed.

Lemma episode_206_not_target : is_target_url episode_206 = false.
Proof. apply (episode_url_not_target episode_206). reflexivity. Defined.

(** ** What the extractor returns *)

Lemma is_digit_value (c : ascii) : is_digit c = true -> 0 <= digit_value c <= 9.
Proof.
  unfold is_digit, Re.class_mem, in_range, digit_value. simpl.
  rewrite orb_false_r, andb_true_iff, !N.leb_le.
  change (code "0") with 48%N. change (code "9") with 57%N. lia.
Qed.

Lemma decimal_nonneg (t : string) : all_of is_digit t = true -> 0 <= decimal t.
Proof.
  unfold all_of, decimal. generalize (chars t) as l. intros l.
  assert (forall acc, 0 <= acc -> forallb is_digit l = true ->
            0 <= fold_left (fun acc c => 10 * acc + digit_value c) l acc) as H.
  { induction l as [|c l IH]; intros acc Hacc Hl; simpl; [done|].
    simpl in Hl. apply andb_true_iff in Hl as [Hc Hl]. apply IH; [|done].
    pose proof (is_digit_value c Hc). lia. }
  by apply H.
Qed.

Lemma valid_date_bounds (y m d : Z) :
  valid_date y m d = true ->
  1 <= y <= 9999 /\ 1 <= m <= 12 /\ 1 <= d <= days_in_month y m /\ days_in_month y m <= 31.
Proof.
  unfold valid_date. rewrite !andb_true_iff, !Z.leb_le. intros H.
  repeat split; try lia. unfold days_in_month.
  destruct (m =? 2); [destruct (is_leap y); lia|].
  destruct (existsb _ _); lia.
Qed.

Lemma short_numeral_intro (t : string) :
  numeral t = true -> too_long t = false -> short_numeral t = true.
Proof.
  unfold short_numeral, too_long. intros -> H. simpl.
  apply Nat.leb_le. apply Nat.ltb_ge in H. lia.
Qed.

(** A returned pair, read back: the components of the URL and the date. *)
Lemma get_episode_info_inv (url : string) (ep_num : Z) (ep_date : datetime) :
  get_episode_info url = Return (Some (ep_num, ep_date)) ->
  exists scheme sep Y M D N slug,
    url = episode_url scheme sep Y M D N slug /\
    is_scheme scheme = true /\ sep <> newline /\
    short_numeral Y = true /\ short_numeral M = true /\ short_numeral D = true /\
    short_numeral N = true /\ slug_ok slug = true /\
    ep_num = decimal N /\ ep_date = date (decimal Y) (decimal M) (decimal D) /\
    valid_date (decimal Y) (decimal M) (decimal D) = true.
Proof.
  intros H.
  assert (is_episode_url url = true) as He.
  { unfold is_episode_url. unfold get_episode_info in H.
    by destruct (re_match ep_url_pattern url). }
  apply is_episode_url_shape in He
    as (scheme & sep & Y & M & D & N & slug & -> & Hs & Hsep & HY & HM & HD & HN & Hslug).
  rewrite (get_episode_info_groups _ Y M D N) in H
    by (by rewrite re_match_ep_url, exec_episode_url).
  rewrite !int_eq in H. unfold mk_datetime in H.
  destruct (too_long Y) eqn:LY; [done|]. destruct (too_long M) eqn:LM; [done|].
  destruct (too_long D) eqn:LD; [done|]. cbn [and_then] in H.
  destruct (negb _); [done|]. destruct (valid_date _ _ _) eqn:Hv; [|done].
  cbn [and_then] in H. destruct (too_long N) eqn:LN; [done|].
  injection H as <- <-.
  exists scheme, sep, Y, M, D, N, slug.
  repeat split; try done; by apply short_numeral_intro.
Qed.

(** When [__get_episode_info] returns a pair, the URL is one of the episode
    template - scheme, host, three date numerals, episode numeral, slug, no
    numeral longer than 4300 digits - the episode number is the value of the
    episode numeral, a non-negative integer, and the date is the existing
    calendar date made of the three date numerals, at midnight. *)
Theorem get_episode_info_Some (url : string) (ep_num : Z) (ep_date : datetime) :
  get_episode_info url = Return (Some (ep_num, ep_date)) ->
  (exists scheme sep Y M D N slug,
      url = episode_url scheme sep Y M D N slug /\
      is_scheme scheme = true /\ sep <> newline /\
      short_numeral Y = true /\ short_numeral M = true /\ short_numeral D = true /\
      short_numeral N = true /\ slug_ok slug = true /\
      ep_num = decimal N /\ ep_date = date (decimal Y) (decimal M) (decimal D)) /\
  0 <= ep_num /\
  1 <= dt_year ep_date <= 9999 /\ 1 <= dt_month ep_date <= 12 /\
  1 <= dt_day ep_date <= days_in_month (dt_year ep_date) (dt_month ep_date) /\
  dt_day ep_date <= 31 /\
  dt_hour ep_date = 0 /\ dt_minute ep_date = 0 /\ dt_second ep_date = 0.
Proof.
  intros H. apply get_episode_info_inv in H
    as (scheme & sep & Y & M & D & N & slug & -> & Hs & Hsep & HY & HM & HD & HN & Hslug
        & -> & -> & Hv).
  apply valid_date_bounds in Hv. simpl.
  split; [by exists scheme, sep, Y, M, D, N, slug|].
  split; [|lia]. apply decimal_nonneg. unfold short_numeral, numeral in HN.
  by apply andb_true_iff in HN as [[_ ?]%andb_true_iff _].
Qed.

Lemma get_episode_info_Some_206 :
  get_episode_info episode_206 = Return (Some (206, date 2021 1 4)) /\
  (exists scheme sep Y M D N slug,
      episode_206 = episode_url scheme sep Y M D N slug /\
      is_scheme scheme = true /\ sep <> newline /\
      short_numeral Y = true /\ short_numeral M = true /\ short_numeral D = true /\
      short_numeral N = true /\ slug_ok slug = true /\
      206 = decimal N /\ date 2021 1 4 = date (decimal Y) (decimal M) (decimal D)) /\
  0 <= 206 /\
  1 <= dt_year (date 2021 1 4) <= 9999 /\ 1 <= dt_month (date 2021 1 4) <= 12 /\
  1 <= dt_day (date 2021 1 4)
    <= days_in_month (dt_year (date 2021 1 4)) (dt_month (date 2021 1 4)) /\
  dt_day (date 2021 1 4) <= 31 /\
  dt_hour (date 2021 1 4) = 0 /\ dt_minute (date 2021 1 4) = 0 /\
  dt_second (date 2021 1 4) = 0.
Proof.
  split; [reflexivity|].
  apply (get_episode_info_Some episode_206 206 (date 2021 1 4)). reflexivity.
Defined.

(** ** The index URL *)

Lemma string_of_uint_digits (d : Decimal.uint) :
  all_of is_digit (NilEmpty.string_of_uint d) = true.
Proof. induction d; simpl; try done; unfold all_of in *; simpl; by rewrite IHd. Qed.

Lemma str_nonneg (n : Z) : 0 <= n -> numeral (str n) = true.
Proof.
  intros Hn. unfold str, numeral.
  assert (forall d, negb (String.eqb (NilZero.string_of_uint d) EmptyString)
                    && all_of is_digit (NilZero.string_of_uint d) = true) as H.
  { intros d. pose proof (string_of_uint_digits d) as Hd.
    destruct d; try done; unfold NilZero.string_of_uint; by rewrite Hd. }
  destruct n as [|p|p]; [done | apply H | lia].
Qed.

Lemma str_neg (n : Z) : n < 0 -> exists t, str n = String "-" t.
Proof. intros Hn. destruct n as [|p|p]; [lia | lia |]. unfold str. simpl. eauto. Qed.

Lemma init_index_not_episode (year : Z) (req_delay_seconds : option Z)
    (log_filepath : option string) :
  is_episode_url (base_url_year (init year req_delay_seconds log_filepath)) = false.
Proof.
  destruct (is_episode_url _) eqn:He; [|done]. exfalso.
  apply is_episode_url_shape in He
    as (scheme & sep & Y & M & D & N & slug & E & Hs & _ & HY & HM & _).
  apply (f_equal chars) in E. unfold init, base_url_year, base_url, episode_url in E.
  rewrite !chars_app, (chars_cons sep) in E.
  change (chars "https://seenunseen.in/episodes/" ++ ?t)
    with (chars "https" ++ ":"%char :: chars "//seenunseen" ++ "."%char
            :: chars "in/episodes/" ++ t) in E.
  change (chars "://seenunseen" ++ ?t) with (":"%char :: chars "//seenunseen" ++ t) in E.
  apply scheme_prefix_eq in E as [_ E]; [|done..].
  apply app_inv_head in E. rewrite <- app_comm_cons in E. injection E as _ E.
  destruct (numeral_chars _ HY) as (b & l' & Hb & Hdb & Hdl'). rewrite Hb in E.
  destruct (Z.lt_ge_cases year 0) as [Hneg | Hpos].
  - destruct (str_neg _ Hneg) as [t Ht]. rewrite Ht, chars_cons in E.
    simpl in E. injection E as <- _. done.
  - apply str_nonneg in Hpos.
    apply (f_equal (skip_while is_digit)) in E.
    destruct (numeral_chars _ Hpos) as (a & l & Ha & Hda & Hdl).
    rewrite Ha in E. simpl in E. rewrite Hda, Hdb in E.
    rewrite !skip_while_stop in E by done. injection E as E.
    destruct (numeral_chars _ HM) as (c & l'' & Hc & _). rewrite Hc in E. done.
Qed.

(** The index URL of a year is never classified as an episode URL, whatever
    the year given to the constructor. *)
Theorem index_url_not_episode (year : Z) (req_delay_seconds : option Z)
    (log_filepath : option string) :
  is_episode_url (base_url_year (init year req_delay_seconds log_filepath)) = false.
Proof. apply init_index_not_episode. Qed.

(** ** The two comprehensions as filters *)

(** When the comprehension of line 125 returns, its value is the list of the
    [href]s of the page, in document order, that [__is_episode_url] accepts. *)
Theorem episode_hrefs_filter (page : document) (hrefs : list string) :
  episode_hrefs page = Return hrefs ->
  hrefs = List.filter is_episode_url (omap (fun a => attrs a !! "href"%string) page).
Proof.
  revert hrefs. induction page as [|a page IH]; intros hrefs; simpl; [by intros [= <-]|].
  unfold href. destruct (attrs a !! "href"%string) as [h|]; [|done]. simpl.
  destruct (is_episode_url h).
  - destruct (episode_hrefs page) as [hs|e]; [|done]. intros [= <-]. f_equal. by apply IH.
  - apply IH.
Qed.

Lemma episode_hrefs_filter_index :
  [episode_206] =
  List.filter is_episode_url
    (omap (fun a => attrs a !! "href"%string)
          [link episode_206 "Episode 206"; link index_2021 "2021"]).
Proof.
  apply (episode_hrefs_filter [link episode_206 "Episode 206"; link index_2021 "2021"]).
  vm_compute. reflexivity.
Defined.

(** When the comprehension of line 140 returns, its value holds, in document
    order, the first child of each anchor whose [href] satisfies
    [__is_target_url]: one text per retailer link, other anchors and further
    children being ignored. *)
Theorem target_texts_filter (page : document) (texts : list string) :
  target_texts page = Return texts ->
  map Some texts = map (fun a => head (contents a)) (List.filter (href_satisfies is_target_url) page)
  /\ length texts = length (List.filter (href_satisfies is_target_url) page).
Proof.
  revert texts. induction page as [|a page IH]; intros texts; simpl; [by intros [= <-]|].
  unfold href. destruct (attrs a !! "href"%string) as [h|] eqn:Ea; [|done].
  assert (href_satisfies is_target_url a = is_target_url h) as ->
    by (unfold href_satisfies; by rewrite Ea).
  destruct (is_target_url h).
  - destruct (contents a) as [|text rest] eqn:Ec; [done|].
    destruct (target_texts page) as [ts|e]; [|done]. intros [= <-].
    destruct (IH ts eq_refl) as [IH1 IH2]. simpl. rewrite Ec, IH1, IH2. done.
  - apply IH.
Qed.

Lemma target_texts_filter_book :
  map Some ["Thinking, Fast and Slow"%string] =
    map (fun a => head (contents a))
        (List.filter (href_satisfies is_target_url)
           [link "https://www.amazon.in/dp/0141033576" "Thinking, Fast and Slow";
            link "https://other.example" "ignored"]) /\
  length ["Thinking, Fast and Slow"%string] =
    length (List.filter (href_satisfies is_target_url)
              [link "https://www.amazon.in/dp/0141033576" "Thinking, Fast and Slow";
               link "https://other.example" "ignored"]).
Proof.
  apply (target_texts_filter
           [link "https://www.amazon.in/dp/0141033576" "Thinking, Fast and Slow";
            link "https://other.example" "ignored"]).
  vm_compute. reflexivity.
Defined.

(** ** The table *)

Lemma scrape_episode_table (w : world) (u : string) df_list (s : state) df_list' s' :
  scrape_episode w u df_list s = (Return df_list', s') ->
  (df_list' = df_list /\ episode_table w u = []) \/
  (df_list' = df_list ++ [episode_table w u] /\ episode_table w u <> []).
Proof.
  rewrite scrape_episode_eq, get_page_soup_cases. unfold episode_table.
  destruct (http_get w u) as [status page | e].
  - cbn [fst snd]. destruct (target_texts page) as [[|b bs]|e]; [| |done].
    + intros [= <- _]. left. split; [done|].
      destruct (get_episode_info u) as [[[n d]|]|e]; try done.
      unfold episode_frame. by destruct (n <? 2 ^ 63).
    + cbn [length Nat.eqb].
      destruct (get_episode_info u) as [[[n d]|]|e]; try done.
      unfold episode_frame. destruct (n <? 2 ^ 63); [|done].
      intros [= <- _]. by right.
  - destruct e; try done. intros [= <- _]. by left.
Qed.

Lemma for_each_episode_table (w : world) (self : scraper) ep_urls df_list (s : state)
    df_list' s' :
  for_each_episode w self ep_urls df_list s = (Return df_list', s') ->
  exists frames,
    df_list' = df_list ++ frames /\ Forall (fun f => f <> []) frames /\
    concat frames = concat (map (episode_table w) ep_urls).
Proof.
  revert df_list s. induction ep_urls as [|u rest IH]; intros df_list s.
  - intros [= <- _]. exists []. by rewrite app_nil_r.
  - rewrite for_each_episode_cons. destruct (delay self s) as [[[]|e] s1]; [|done].
    destruct (scrape_episode w u df_list s1) as [[df1|e] s2] eqn:E; [|done].
    intros H. apply IH in H as (frames & -> & Hne & Hc).
    apply scrape_episode_table in E as [[-> Hu] | [-> Hu]].
    + exists frames. simpl. by rewrite Hu.
    + exists (episode_table w u :: frames). rewrite <- app_assoc. simpl.
      split; [done|]. split; [by constructor | by rewrite Hc].
Qed.

Lemma concat_nonempty (frames : list frame) :
  Forall (fun f => f <> []) frames -> concat frames = [] -> frames = [].
Proof.
  intros H E. destruct H as [|f frames Hf _]; [done|]. simpl in E.
  by apply app_eq_nil in E as [? _].
Qed.

Lemma collect_books_table (w : world) (self : scraper) (page : document) (s : state)
    (result : option frame) :
  fst (collect_books w self (Some page) s) = Return result ->
  exists hrefs,
    episode_hrefs page = Return hrefs /\
    result = match concat (map (episode_table w) (set_iter w (list_to_set hrefs))) with
             | [] => None
             | row :: rows => Some (row :: rows)
             end.
Proof.
  unfold collect_books, bind, lift.
  destruct (episode_hrefs page) as [hrefs|e]; [|done]. exists hrefs. split; [done|].
  destruct (for_each_episode w self _ [] s) as [[df_list|e] s1] eqn:El; [|done].
  apply for_each_episode_table in El as (frames & -> & Hne & <-).
  simpl in H. unfold pd_concat in H.
  destruct frames as [|f frames]; simpl in H; injection H as <-; [done|].
  inversion Hne as [|? ? Hf _]; subst. by destruct f.
Qed.

(** The table, row for row.  With the index page fetched, an invocation that
    returns returns the rows of the linked episodes - each distinct episode
    URL once, in the order the set of URLs is iterated, the rows of one
    episode in document order - or [None] when there is no such row; it
    never returns an empty table. *)
Theorem get_books_table (w : world) (self : scraper) (s : state)
    (status : nat) (page : document) (result : option frame) :
  http_get w (base_url_year self) = Response status page ->
  fst (get_books w self s) = Return result ->
  (exists hrefs,
      episode_hrefs page = Return hrefs /\
      result = match concat (map (episode_table w) (set_iter w (list_to_set hrefs))) with
               | [] => None
               | row :: rows => Some (row :: rows)
               end) /\
  result <> Some [].
Proof.
  intros H. rewrite (get_books_fetched _ _ _ _ _ H). intros Hres.
  apply collect_books_table in Hres as (hrefs & Eh & ->). split; [eauto|].
  by destruct (concat _).
Qed.

Lemma get_books_table_one_book :
  (exists hrefs,
      episode_hrefs [link episode_206 "Episode 206"] = Return hrefs /\
      Some [(206, "Thinking, Fast and Slow"%string)] =
      match concat (map (episode_table one_book) (set_iter one_book (list_to_set hrefs))) with
      | [] => None
      | row :: rows => Some (row :: rows)
      end) /\
  Some [(206, "Thinking, Fast and Slow"%string)] <> Some [].
Proof.
  apply (get_books_table one_book (init 2021 None None) fresh 200
           [link episode_206 "Episode 206"]); vm_compute; reflexivity.
Defined.

(** ** Where a row comes from *)

Lemma get_episode_info_number (url : string) (ep_num : Z) (ep_date : datetime) :
  get_episode_info url = Return (Some (ep_num, ep_date)) ->
  is_episode_url url = true /\ 0 <= ep_num.
Proof.
  intros H. apply get_episode_info_inv in H
    as (scheme & sep & Y & M & D & N & slug & -> & Hs & Hsep & HY & HM & HD & HN & Hslug
        & -> & _).
  unfold short_numeral in *.
  apply andb_true_iff in HY as [HY _], HM as [HM _], HD as [HD _], HN as [HN _]. split.
  - apply is_episode_url_shape. by exists scheme, sep, Y, M, D, N, slug.
  - apply decimal_nonneg. unfold numeral in HN. by apply andb_true_iff in HN as [_ ?].
Qed.

Lemma target_texts_elem (page : document) (texts : list string) (b : string) :
  target_texts page = Return texts -> b ∈ texts ->
  exists a h, a ∈ page /\ attrs a !! "href"%string = Some h /\ is_target_url h = true /\
              head (contents a) = Some b.
Proof.
  revert texts. induction page as [|a page IH]; intros texts; simpl.
  - intros [= <-] Hb. by apply elem_of_nil in Hb.
  - unfold href. destruct (attrs a !! "href"%string) as [h|] eqn:Ea; [|done].
    destruct (is_target_url h) eqn:Et.
    + destruct (contents a) as [|text rest] eqn:Ec; [done|].
      destruct (target_texts page) as [ts|e]; [|done]. intros [= <-] Hb.
      apply elem_of_cons in Hb as [-> | Hb].
      * exists a, h. rewrite Ec. repeat split; auto. left.
      * destruct (IH ts eq_refl Hb) as (a' & h' & Ha' & ?). exists a', h'.
        split; [by right | done].
    + intros H Hb. destruct (IH texts H Hb) as (a' & h' & Ha' & ?). exists a', h'.
      split; [by right | done].
Qed.

Lemma episode_table_elem (w : world) (u : string) (n : Z) (b : string) :
  (n, b) ∈ episode_table w u ->
  exists status page ep_date a h,
    http_get w u = Response status page /\
    get_episode_info u = Return (Some (n, ep_date)) /\
    a ∈ page /\ attrs a !! "href"%string = Some h /\ is_target_url h = true /\
    head (contents a) = Some b /\ n < 2 ^ 63.
Proof.
  unfold episode_table. destruct (http_get w u) as [status page | e]; [|by intros ?%elem_of_nil].
  destruct (target_texts page) as [books|e] eqn:Et; [|by intros ?%elem_of_nil].
  destruct (get_episode_info u) as [[[n' d]|]|e]; try by intros ?%elem_of_nil.
  unfold episode_frame. destruct (n' <? 2 ^ 63) eqn:Hn; [|by intros ?%elem_of_nil].
  intros Hin. apply list_elem_of_fmap in Hin as (b' & [= -> ->] & Hb).
  destruct (target_texts_elem _ _ _ Et Hb) as (a & h & ? & ? & ? & ?).
  exists status, page, d, a, h. repeat split; auto. by apply Z.ltb_lt.
Qed.

(** Every row of a returned table comes from an episode: its number is the
    one [__get_episode_info] extracts from an episode URL linked from the
    index page, it lies between 0 and 2^63 - 1, and its text is the first
    child of a retailer link on the page that URL was answered with. *)
Theorem get_books_row_origin (w : world) (self : scraper) (s : state)
    (status : nat) (page : document) (table : frame) (n : Z) (b : string) :
  iterates_sets w ->
  http_get w (base_url_year self) = Response status page ->
  fst (get_books w self s) = Return (Some table) ->
  (n, b) ∈ table ->
  exists a h ep_status ep_page ep_date a' h',
    a ∈ page /\ attrs a !! "href"%string = Some h /\ is_episode_url h = true /\
    http_get w h = Response ep_status ep_page /\
    get_episode_info h = Return (Some (n, ep_date)) /\
    a' ∈ ep_page /\ attrs a' !! "href"%string = Some h' /\ is_target_url h' = true /\
    head (contents a') = Some b /\ 0 <= n < 2 ^ 63.
Proof.
  intros Hw H. rewrite (get_books_fetched _ _ _ _ _ H). intros Hres Hrow.
  apply collect_books_table in Hres as (hrefs & Eh & Hres).
  assert ((n, b) ∈ concat (map (episode_table w) (set_iter w (list_to_set hrefs)))) as Hin.
  { destruct (concat _); [done|]. by injection Hres as <-. }
  apply list_elem_of_In, in_concat in Hin as (f & Hf & Hin).
  apply in_map_iff in Hf as (u & <- & Hu).
  apply list_elem_of_In in Hu, Hin.
  apply set_iter_elem in Hu; [|done].
  apply (episode_hrefs_Return _ _ Eh) in Hu as (a & Ha & Hah & He).
  apply episode_table_elem in Hin as (st & ep_page & d & a' & h' & Hget & Hinfo & ? & ? & ? & ? & ?).
  destruct (get_episode_info_number _ _ _ Hinfo) as [_ Hn].
  exists a, u, st, ep_page, d, a', h'. repeat split; auto.
Qed.

Lemma get_books_row_origin_one_book :
  exists a h ep_status ep_page ep_date a' h',
    a ∈ [link episode_206 "Episode 206"] /\ attrs a !! "href"%string = Some h /\
    is_episode_url h = true /\
    http_get one_book h = Response ep_status ep_page /\
    get_episode_info h = Return (Some (206, ep_date)) /\
    a' ∈ ep_page /\ attrs a' !! "href"%string = Some h' /\ is_target_url h' = true /\
    head (contents a') = Some "Thinking, Fast and Slow"%string /\ 0 <= 206 < 2 ^ 63.
Proof.
  apply (get_books_row_origin one_book (init 2021 None None) fresh 200
           [link episode_206 "Episode 206"] [(206, "Thinking, Fast and Slow"%string)]).
  - apply world_of_iterates_sets.
  - reflexivity.
  - vm_compute. reflexivity.
  - left.
Defined.

(** ** Exceptions *)

Lemma target_texts_Raise (page : document) (e : exn) :
  target_texts page = Raise e -> e = KeyError "href" \/ e = IndexError.
Proof.
  induction page as [|a page IH]; simpl; [done|].
  unfold href. destruct (attrs a !! "href"%string) as [h|]; [|intros [= <-]; by left].
  destruct (is_target_url h); [|done].
  destruct (contents a); [intros [= <-]; by right|].
  destruct (target_texts page); [done|]. intros [= <-]. by apply IH.
Qed.

Lemma episode_hrefs_Raise (page : document) (e : exn) :
  episode_hrefs page = Raise e -> e = KeyError "href".
Proof.
  induction page as [|a page IH]; simpl; [done|].
  unfold href. destruct (attrs a !! "href"%string) as [h|]; [|by intros [= <-]].
  destruct (is_episode_url h); [|done].
  destruct (episode_hrefs page); [done|]. intros [= <-]. by apply IH.
Qed.

Lemma int_Raise (text : string) (e : exn) : int text = Raise e -> e = ValueError.
Proof. unfold int. destruct (_ <? _)%nat; [|done]. by intros [= <-]. Qed.

Lemma mk_datetime_Raise (y m d : Z) (e : exn) :
  mk_datetime y m d = Raise e -> e = ValueError \/ e = OverflowError.
Proof.
  unfold mk_datetime. destruct (negb _); [intros [= <-]; by right|].
  destruct (valid_date _ _ _); [done|]. intros [= <-]. by left.
Qed.

Lemma get_episode_info_Raise (url : string) (e : exn) :
  get_episode_info url = Raise e -> e = ValueError \/ e = OverflowError.
Proof.
  unfold get_episode_info. destruct (re_match ep_url_pattern url) as [m|]; [|done].
  destruct (int (Re.group m 1)) as [y|e1] eqn:E1;
    [|intros [= <-]; left; by apply int_Raise in E1].
  destruct (int (Re.group m 2)) as [mo|e2] eqn:E2;
    [|intros [= <-]; left; by apply int_Raise in E2].
  destruct (int (Re.group m 3)) as [d|e3] eqn:E3;
    [|intros [= <-]; left; by apply int_Raise in E3].
  cbn [and_then].
  destruct (mk_datetime y mo d) as [dt|e4] eqn:E4;
    [|intros [= <-]; by apply mk_datetime_Raise in E4].
  cbn [and_then].
  destruct (int (Re.group m 4)) as [n|e5] eqn:E5;
    [done|intros [= <-]; left; by apply int_Raise in E5].
Qed.

Lemma get_episode_info_match (url : string) :
  is_episode_url url = true -> get_episode_info url <> Return None.
Proof.
  unfold is_episode_url, get_episode_info.
  destruct (re_match ep_url_pattern url) as [m|]; [|done]. intros _.
  destruct (int (Re.group m 1)); [|done]. destruct (int (Re.group m 2)); [|done].
  destruct (int (Re.group m 3)); [|done]. cbn [and_then].
  destruct (mk_datetime _ _ _); [|done]. cbn [and_then].
  by destruct (int (Re.group m 4)).
Qed.

(** The exceptions of one episode, on an episode URL. *)
Lemma scrape_episode_Raise (w : world) (u : string) df_list (s : state) (e : exn) :
  is_episode_url u = true ->
  fst (scrape_episode w u df_list s) = Raise e ->
  (http_get w u = Failure e /\ forall detail, e <> RequestException detail) \/
  e = KeyError "href" \/ e = IndexError \/ e = ValueError \/ e = OverflowError.
Proof.
  intros Hu. rewrite scrape_episode_eq, get_page_soup_cases.
  destruct (http_get w u) as [status page | e'].
  - cbn [fst snd]. destruct (target_texts page) as [books|e'] eqn:Et.
    + destruct (length books =? 0)%nat; [done|].
      destruct (get_episode_info u) as [[[n d]|]|e'] eqn:Ei.
      * unfold episode_frame. destruct (n <? 2 ^ 63); [done|]. intros [= <-]. auto.
      * by destruct (get_episode_info_match _ Hu).
      * intros [= <-]. apply get_episode_info_Raise in Ei as [-> | ->]; auto.
    + intros [= <-]. apply target_texts_Raise in Et as [-> | ->]; auto.
  - destruct e'; intros [= <-]; by left.
Qed.

(** Whether an episode raises depends neither on the frames collected so far
    nor on the state. *)
Lemma scrape_episode_Raise_anywhere (w : world) (u : string) df_list (s : state) (e : exn)
    df_list' (s' : state) :
  fst (scrape_episode w u df_list s) = Raise e ->
  fst (scrape_episode w u df_list' s') = Raise e.
Proof.
  rewrite !scrape_episode_eq, !get_page_soup_cases.
  destruct (http_get w u) as [status page | e'].
  - cbn [fst snd]. destruct (target_texts page) as [books|e']; [|done].
    destruct (length books =? 0)%nat; [done|].
    destruct (get_episode_info u) as [[[n d]|]|e']; try done.
    by destruct (episode_frame n books).
  - by destruct e'.
Qed.

Lemma delay_Raise (self : scraper) (s : state) (e : exn) :
  fst (delay self s) = Raise e -> e = ValueError \/ e = OverflowError.
Proof.
  unfold delay, time_sleep. destruct (req_delay_second self) as [seconds|]; [|done].
  destruct (seconds =? 0); [done|].
  destruct (_ || _); [intros [= <-]; by right|].
  destruct (seconds <? 0); [|done]. intros [= <-]. by left.
Qed.

Lemma for_each_episode_Raise (w : world) (self : scraper) ep_urls df_list (s : state) (e : exn) :
  fst (for_each_episode w self ep_urls df_list s) = Raise e ->
  (e = ValueError \/ e = OverflowError) \/
  exists u df1 s1, u ∈ ep_urls /\ fst (scrape_episode w u df1 s1) = Raise e.
Proof.
  revert df_list s. induction ep_urls as [|u rest IH]; intros df_list s; [done|].
  rewrite for_each_episode_cons. destruct (delay self s) as [[[]|e'] s1] eqn:Ed.
  - destruct (scrape_episode w u df_list s1) as [[df1|e'] s2] eqn:E.
    + intros H. apply IH in H as [? | (u' & df1' & s1' & Hin & H)]; [by left|].
      right. exists u', df1', s1'. split; [by right | done].
    + intros [= <-]. right. exists u, df_list, s1. split; [left | by rewrite E].
  - intros [= <-]. left. apply (delay_Raise self s). by rewrite Ed.
Qed.

Lemma for_each_episode_all_return (w : world) (self : scraper) ep_urls df_list (s : state)
    df_list' s' (u : string) :
  for_each_episode w self ep_urls df_list s = (Return df_list', s') -> u ∈ ep_urls ->
  exists df1 s1, returns (fst (scrape_episode w u df1 s1)) = true.
Proof.
  revert df_list s. induction ep_urls as [|u' rest IH]; intros df_list s.
  - by intros _ ?%elem_of_nil.
  - rewrite for_each_episode_cons. destruct (delay self s) as [[[]|e] s1]; [|done].
    destruct (scrape_episode w u' df_list s1) as [[df1|e] s2] eqn:E; [|done].
    intros H Hin. apply elem_of_cons in Hin as [-> | Hin]; [|by eapply IH].
    exists df_list, s1. by rewrite E.
Qed.

Lemma get_books_Raise (w : world) (self : scraper) (s : state) (e : exn) :
  iterates_sets w ->
  fst (get_books w self s) = Raise e ->
  ((exists url, http_get w url = Failure e) /\ forall detail, e <> RequestException detail) \/
  e = no_findAll \/ e = KeyError "href" \/
  e = IndexError \/ e = ValueError \/ e = OverflowError.
Proof.
  intros Hw. rewrite get_books_eq, get_books_as_dataframe_eq, get_page_soup_cases.
  cbn [fst]. destruct (http_get w (base_url_year self)) as [status page | e'] eqn:H.
  - cbn [fst snd]. unfold collect_books, bind, lift.
    destruct (episode_hrefs page) as [hrefs|e'] eqn:Eh.
    + destruct (for_each_episode w self _ [] _) as [[df_list|e'] s1] eqn:El.
      * by destruct (length df_list =? 0)%nat.
      * intros [= <-].
        destruct (for_each_episode_Raise w self _ _ _ e' (f_equal fst El))
          as [[-> | ->] | (u & df1 & s1' & Hin & Hraise)]; [auto 6 | auto 6 |].
        apply set_iter_elem in Hin; [|done].
        apply (episode_hrefs_Return _ _ Eh) in Hin as (a & _ & _ & Hu).
        apply scrape_episode_Raise in Hraise as [[? ?] | ?]; [left; eauto | auto | done].
    + intros [= <-]. apply episode_hrefs_Raise in Eh. auto.
  - destruct e'; intros [= <-]; first [by right; left | left; split; [by eauto | done]].
Qed.

(** The exceptions of [get_books].  A call raises only: the exception that
    [open] raised for the configured log path; an exception that
    [requests.get] raised and that is not a [RequestException]; the
    attribute error of an unavailable index page; [KeyError('href')];
    [IndexError]; [ValueError]; or [OverflowError].  In particular the
    subscript [ep_info[0]] never fails on [None], every URL of the loop
    having been accepted by [__is_episode_url].  (Writing to the log and
    parsing a page are taken to succeed.) *)
Theorem get_books_exceptions (fs : string -> option exn) (w : world) (self : scraper)
    (s : state) (e : exn) :
  iterates_sets w ->
  fst (get_books_call fs w self s) = Raise e ->
  (exists path, truthy_path (log_filepath self) = Some path /\ fs path = Some e) \/
  ((exists url, http_get w url = Failure e) /\ forall detail, e <> RequestException detail) \/
  e = no_findAll \/ e = KeyError "href" \/
  e = IndexError \/ e = ValueError \/ e = OverflowError.
Proof.
  intros Hw. unfold get_books_call, builtin_open.
  destruct (truthy_path (log_filepath self)) as [path|] eqn:Hp.
  - destruct (fs path) as [e'|] eqn:Hfs.
    + intros [= <-]. left. by exists path.
    + intros H. right. by apply (get_books_Raise w self s).
  - intros H. right. by apply (get_books_Raise w self s).
Qed.

Lemma get_books_exceptions_bare_index :
  (exists path, truthy_path (log_filepath (init 2021 None None)) = Some path /\
                every_path_opens path = Some (KeyError "href")) \/
  ((exists url, http_get bare_index url = Failure (KeyError "href")) /\
   forall detail, KeyError "href" <> RequestException detail) \/
  KeyError "href" = no_findAll \/ KeyError "href" = KeyError "href" \/
  KeyError "href" = IndexError \/ KeyError "href" = ValueError \/
  KeyError "href" = OverflowError.
Proof.
  apply (get_books_exceptions every_path_opens bare_index (init 2021 None None) fresh
           (KeyError "href")).
  - apply world_of_iterates_sets.
  - vm_compute. reflexivity.
Defined.

(** One episode that raises - a retailer link without children, a date that
    does not exist, an anchor without [href], an episode number too large,
    an exception of the transport that is not a [RequestException] - makes
    the whole invocation raise: the rows of the other episodes are not
    returned. *)
Theorem get_books_no_partial_table (w : world) (self : scraper) (s : state)
    (status : nat) (page : document) (a : anchor) (h : string) (e : exn) :
  iterates_sets w ->
  http_get w (base_url_year self) = Response status page ->
  a ∈ page -> attrs a !! "href"%string = Some h -> is_episode_url h = true ->
  fst (scrape_episode w h [] fresh) = Raise e ->
  returns (fst (get_books w self s)) = false.
Proof.
  intros Hw H Ha Hh He Hraise. rewrite (get_books_fetched _ _ _ _ _ H).
  unfold collect_books, bind, lift.
  destruct (episode_hrefs page) as [hrefs|e'] eqn:Eh; [|done].
  destruct (for_each_episode w self _ [] _) as [[df_list|e'] s1] eqn:El; [|done].
  exfalso.
  assert (h ∈ set_iter w (list_to_set hrefs)) as Hin.
  { apply set_iter_elem; [done|]. apply (episode_hrefs_Return _ _ Eh). eauto. }
  destruct (for_each_episode_all_return _ _ _ _ _ _ _ _ El Hin) as (df1 & s1' & Hret).
  by rewrite (scrape_episode_Raise_anywhere _ _ _ _ _ df1 s1' Hraise) in Hret.
Qed.

Lemma get_books_no_partial_table_bare_episode :
  returns (fst (get_books bare_episode (init 2021 None None) fresh)) = false.
Proof.
  apply (get_books_no_partial_table bare_episode (init 2021 None None) fresh 200
           [link episode_206 "Episode 206"] (link episode_206 "Episode 206") episode_206
           (KeyError "href")).
  - apply world_of_iterates_sets.
  - reflexivity.
  - left.
  - reflexivity.
  - reflexivity.
  - vm_compute. reflexivity.
Defined.

(** ** The effects of an invocation *)

Lemma state_eta (s : state) : {| log_file := log_file s; trace := trace s |} = s.
Proof. by destruct s. Qed.

(** The fetcher requests the page and writes at most the line of a failed
    fetch. *)
Lemma get_page_soup_events (w : world) (url : string) (s : state) :
  exists lines,
    snd (get_page_soup w url s) =
      {| log_file := log_file s; trace := trace s ++ Requested url :: lines |} /\
    Forall (inner_event (log_file s)) lines /\ requested lines = [] /\ slept lines = [].
Proof.
  rewrite get_page_soup_cases. destruct (http_get w url) as [status page | e].
  - exists []. by repeat split.
  - destruct e; try (exists []; by repeat split).
    cbn [snd]. destruct (log_file s) as [f|] eqn:Ef.
    + eexists [_]. unfold emit. cbn [log_file trace]. rewrite Ef, <- app_assoc.
      split; [reflexivity|]. repeat split; try done.
      constructor; [|done]. split; [done|]. do 2 eexists. split; [reflexivity|].
      right. by left.
    + exists []. unfold emit. cbn [log_file trace]. rewrite Ef. by repeat split.
Qed.

Lemma write_log_events (w : world) (msg : string) (s : state) :
  log_message msg ->
  exists lines,
    snd (write_log w msg s) = {| log_file := log_file s; trace := trace s ++ lines |} /\
    Forall (inner_event (log_file s)) lines /\ requested lines = [] /\ slept lines = [].
Proof.
  intros Hmsg. rewrite write_log_eq. cbn [snd]. destruct (log_file s) as [f|] eqn:Ef.
  - eexists [_]. unfold emit. rewrite Ef. split; [reflexivity|]. repeat split; try done.
    constructor; [|done]. split; [done|]. eauto.
  - exists []. rewrite app_nil_r, <- Ef. by rewrite state_eta.
Qed.

Lemma scrape_episode_state (w : world) (u : string) df_list (s : state) :
  snd (scrape_episode w u df_list s) =
  match get_page_soup w u s with
  | (Return (Some page), s1) => snd (write_log w ("Episode fetched : " ++ u)%string s1)
  | (_, s1) => s1
  end.
Proof.
  rewrite scrape_episode_eq.
  destruct (get_page_soup w u s) as [[[page|]|e] s1]; try done. cbn zeta.
  destruct (target_texts page) as [books|e]; [|done].
  destruct (length books =? 0)%nat; [done|].
  destruct (get_episode_info u) as [[[n d]|]|e]; try done.
  by destruct (episode_frame n books).
Qed.

Lemma scrape_episode_events (w : world) (u : string) df_list (s : state) :
  is_episode_url u = true ->
  exists lines,
    snd (scrape_episode w u df_list s) =
      {| log_file := log_file s; trace := trace s ++ Requested u :: lines |} /\
    Forall (inner_event (log_file s)) lines /\ requested lines = [] /\ slept lines = [].
Proof.
  intros Hu. rewrite scrape_episode_state.
  destruct (get_page_soup_events w u s) as (lines & Hs1 & Hlines & Hr & Hsl).
  destruct (get_page_soup w u s) as [[[page|]|e] s1]; cbn [snd] in Hs1; subst s1;
    try (exists lines; by repeat split).
  match goal with |- context [write_log w ?msg ?s1] =>
    destruct (write_log_events w msg s1) as (lines' & Hs2 & Hlines' & Hr' & Hsl');
      [right; right; eauto|] end.
  rewrite Hs2. cbn [log_file trace] in *. exists (lines ++ lines').
  rewrite <- app_assoc. split; [reflexivity|]. unfold requested, slept in *.
  rewrite !omap_app, Hr, Hr', Hsl, Hsl'. repeat split; try done.
  by apply Forall_app.
Qed.

Lemma delay_events (self : scraper) (s : state) :
  (returns (fst (delay self s)) = false /\ snd (delay self s) = s /\
   refused_delay self = true) \/
  (fst (delay self s) = Return tt /\
   snd (delay self s) =
     {| log_file := log_file s; trace := trace s ++ map Slept (pause_of self) |} /\
   refused_delay self = false).
Proof.
  unfold delay, pause_of, time_sleep, refused_delay.
  destruct (req_delay_second self) as [d|].
  - destruct (d =? 0) eqn:E0.
    { right. apply Z.eqb_eq in E0 as ->. simpl. by rewrite app_nil_r, state_eta. }
    destruct (d <? - sleep_max) eqn:E1.
    { left. apply Z.ltb_lt in E1. unfold sleep_max in *.
      repeat split; try done. apply orb_true_iff. left. apply Z.ltb_lt. lia. }
    destruct (sleep_max <? d) eqn:E2.
    { left. repeat split; try done. by rewrite orb_true_r. }
    destruct (d <? 0); [by left | by right].
  - right. simpl. by rewrite app_nil_r, state_eta.
Qed.

Lemma requested_app (a b : list event) : requested (a ++ b) = requested a ++ requested b.
Proof. apply omap_app. Qed.

Lemma slept_app (a b : list event) : slept (a ++ b) = slept a ++ slept b.
Proof. apply omap_app. Qed.

Lemma requested_request (u : string) (l : list event) :
  requested (Requested u :: l) = u :: requested l.
Proof. reflexivity. Qed.

Lemma slept_request (u : string) (l : list event) : slept (Requested u :: l) = slept l.
Proof. reflexivity. Qed.

Lemma pause_events (h : option string) (ds : list Z) :
  requested (map Slept ds) = [] /\ slept (map Slept ds) = ds /\
  Forall (inner_event h) (map Slept ds).
Proof.
  induction ds as [|d ds (Hr & Hs & Hf)]; [done|].
  change (map Slept (d :: ds)) with (Slept d :: map Slept ds).
  repeat split; [exact Hr | | by constructor].
  change (slept (Slept d :: map Slept ds)) with (d :: slept (map Slept ds)). by rewrite Hs.
Qed.

(** The loop: the episode pages are requested in the order of [ep_urls], up
    to the first one that raises, each after its pause. *)
Lemma for_each_episode_io (w : world) (self : scraper) ep_urls df_list (s : state) :
  (forall u, u ∈ ep_urls -> is_episode_url u = true) ->
  exists fetched events,
    fetched `prefix_of` ep_urls /\
    (returns (fst (for_each_episode w self ep_urls df_list s)) = true -> fetched = ep_urls) /\
    snd (for_each_episode w self ep_urls df_list s) =
      {| log_file := log_file s; trace := trace s ++ events |} /\
    requested events = fetched /\
    slept events = flat_map (fun _ => pause_of self) fetched /\
    Forall (inner_event (log_file s)) events /\
    (refused_delay self = true -> fetched = []).
Proof.
  revert df_list s. induction ep_urls as [|u rest IH]; intros df_list s Hurls.
  - exists [], []. simpl. rewrite app_nil_r, state_eta. by repeat split.
  - rewrite for_each_episode_cons.
    destruct (pause_events (log_file s) (pause_of self)) as (Hpr & Hps & Hpf).
    destruct (delay_events self s) as [(Hd1 & Hd2 & Hp) | (Hd1 & Hd2 & Hp)];
      destruct (delay self s) as [r1 s1]; cbn [fst snd] in Hd1, Hd2; subst s1.
    + destruct r1 as [[]|e]; [done|].
      exists [], []. simpl. rewrite app_nil_r, state_eta. repeat split; try done.
      apply prefix_nil.
    + subst r1. match goal with |- context [scrape_episode w u df_list ?s1] =>
        destruct (scrape_episode_events w u df_list s1) as (lines & Hs2 & Hlines & Hr & Hsl);
          [apply Hurls; left|];
        destruct (scrape_episode w u df_list s1) as [[df1|e] s2] end;
        cbn [snd log_file trace] in *; subst s2.
      * destruct (IH df1 {| log_file := log_file s;
                            trace := (trace s ++ map Slept (pause_of self))
                                     ++ Requested u :: lines |})
          as (fetched & events & Hpre & Hret & Hsnd & Hreq & Hslept & Hall & _).
        { intros u' Hu'. apply Hurls. by right. }
        cbn [log_file trace] in *.
        exists (u :: fetched), (map Slept (pause_of self) ++ (Requested u :: lines) ++ events).
        split; [by apply prefix_cons|]. split; [intros Hr'; f_equal; by apply Hret|].
        split; [rewrite Hsnd; f_equal; by rewrite <- !app_assoc|].
        rewrite !requested_app, !slept_app, requested_request, slept_request.
        rewrite Hpr, Hps, Hr, Hsl, Hreq, Hslept. repeat split; try done; [|congruence].
        apply Forall_app. split; [done|]. apply Forall_app. split; [by constructor | done].
      * exists [u], (map Slept (pause_of self) ++ Requested u :: lines).
        split; [apply prefix_cons, prefix_nil|]. split; [done|].
        split; [cbn [snd]; f_equal; by rewrite <- !app_assoc|].
        rewrite !requested_app, !slept_app, requested_request, slept_request.
        rewrite Hpr, Hps, Hr, Hsl. simpl. rewrite app_nil_r.
        repeat split; try done; [|congruence].
        apply Forall_app. split; [done|]. by constructor.
Qed.

Lemma set_iter_NoDup (w : world) (X : gset string) : iterates_sets w -> NoDup (set_iter w X).
Proof. intros Hw. rewrite (Hw X). apply NoDup_elements. Qed.

Lemma prefix_NoDup (l1 l2 : list string) : l1 `prefix_of` l2 -> NoDup l2 -> NoDup l1.
Proof. intros [k ->] H. by apply NoDup_app in H as [? _]. Qed.

Lemma prefix_elem (l1 l2 : list string) (u : string) : l1 `prefix_of` l2 -> u ∈ l1 -> u ∈ l2.
Proof. intros [k ->] H. apply elem_of_app. by left. Qed.

Ltac io_projections :=
  rewrite ?requested_app, ?slept_app, ?requested_request, ?slept_request.

Ltac io_no_episode :=
  repeat split; try done;
  first [ by intros ? ?%elem_of_nil
        | match goal with H : _ ∈ [] |- _ => by apply elem_of_nil in H end
        | by apply NoDup_nil_2
        | repeat (apply Forall_app; split); try done; by constructor ].

Lemma get_books_as_dataframe_io (w : world) (self : scraper) (s : state) :
  iterates_sets w ->
  exists fetched events,
    snd (get_books_as_dataframe w self s) =
      {| log_file := log_file s; trace := trace s ++ events |} /\
    requested events = base_url_year self :: fetched /\
    slept events = flat_map (fun _ => pause_of self) fetched /\
    Forall (inner_event (log_file s)) events /\
    NoDup fetched /\
    (forall u, u ∈ fetched -> linked_episode w self u) /\
    (returns (fst (get_books_as_dataframe w self s)) = true ->
     forall u, linked_episode w self u -> u ∈ fetched) /\
    (refused_delay self = true -> fetched = []).
Proof.
  intros Hw. rewrite get_books_as_dataframe_eq.
  destruct (get_page_soup_events w (base_url_year self) s) as (lines & Hs1 & Hlines & Hr & Hsl).
  assert (forall page, fst (get_page_soup w (base_url_year self) s) = Return (Some page) ->
                       exists status, http_get w (base_url_year self) = Response status page)
    as Hpage.
  { intros page. rewrite get_page_soup_cases.
    destruct (http_get w (base_url_year self)) as [status page'|e]; [intros [= ->]; eauto|].
    by destruct e. }
  destruct (get_page_soup w (base_url_year self) s) as [[base_page|e] s1];
    cbn [fst snd] in *; subst s1.
  - match goal with |- context [write_log w ?msg ?s1] =>
      destruct (write_log_events w msg s1) as (lines' & Hs2 & Hlines' & Hr' & Hsl');
        [by left|] end.
    rewrite Hs2. cbn [log_file trace] in *. clear Hs2.
    destruct base_page as [page|].
    + destruct (Hpage page eq_refl) as [status Hget].
      unfold collect_books, bind, lift.
      destruct (episode_hrefs page) as [hrefs|e] eqn:Eh.
      * destruct (episode_hrefs_Return _ _ Eh) as [_ Hmem].
        match goal with |- context [for_each_episode w self ?l [] ?s2] =>
          destruct (for_each_episode_io w self l [] s2)
            as (fetched & events & Hpre & Hret & Hsnd & Hreq & Hslept & Hall & Href);
            [intros u Hu; apply set_iter_elem in Hu; [|done];
             by apply Hmem in Hu as (a & _ & _ & ?)|];
          destruct (for_each_episode w self l [] s2) as [[df_list|e] s3] end;
          cbn [fst snd log_file trace] in *; subst s3;
          [destruct (length df_list =? 0)%nat|];
          exists fetched, ((Requested (base_url_year self) :: lines) ++ lines' ++ events);
          (split; [cbn [fst snd ret]; f_equal; by rewrite <- !app_assoc|]);
          io_projections; rewrite Hr, Hr', Hsl, Hsl', Hreq, Hslept;
          (split; [done|]); (split; [done|]);
          (split; [repeat (apply Forall_app; split); try done; by constructor|]);
          (split; [eapply prefix_NoDup; [done | by apply set_iter_NoDup]|]).
        all: split;
          [intros u Hu; eapply prefix_elem in Hu; [|done];
           apply set_iter_elem in Hu; [|done];
           apply Hmem in Hu as (a & ? & ? & ?); split; [done|];
           by exists status, page, a|].
        all: (split; [|exact Href]).
        all: try done.
        all: intros _ v [Hv (st & pg & b & Hg & Hb & Hh)];
          rewrite Hret by done; apply set_iter_elem; [done|]; apply Hmem;
          rewrite Hget in Hg; injection Hg as _ <-; eauto.
      * exists [], ((Requested (base_url_year self) :: lines) ++ lines').
        split; [cbn [snd]; f_equal; by rewrite <- !app_assoc|].
        io_projections. rewrite Hr, Hr', Hsl, Hsl'. io_no_episode.
    + exists [], ((Requested (base_url_year self) :: lines) ++ lines').
      split; [cbn [snd]; f_equal; by rewrite <- !app_assoc|].
      io_projections. rewrite Hr, Hr', Hsl, Hsl'. io_no_episode.
  - exists [], (Requested (base_url_year self) :: lines).
    io_projections. rewrite Hr, Hsl. io_no_episode.
Qed.

Lemma requested_bracket (p : string) (events : list event) :
  requested (Opened p :: events ++ [Closed p]) = requested events /\
  slept (Opened p :: events ++ [Closed p]) = slept events.
Proof.
  change (Opened p :: events ++ [Closed p]) with ([Opened p] ++ events ++ [Closed p]).
  rewrite !requested_app, !slept_app. simpl. by rewrite !app_nil_r.
Qed.

(** The effects of one invocation of [get_books]. *)
Lemma get_books_io (w : world) (self : scraper) (s : state) :
  iterates_sets w ->
  exists fetched events,
    snd (get_books w self s) =
      {| log_file := None;
         trace := trace s ++ match truthy_path (log_filepath self) with
                             | Some p => Opened p :: events ++ [Closed p]
                             | None => events
                             end |} /\
    requested events = base_url_year self :: fetched /\
    slept events = flat_map (fun _ => pause_of self) fetched /\
    Forall (inner_event (truthy_path (log_filepath self))) events /\
    NoDup fetched /\
    (forall u, u ∈ fetched -> linked_episode w self u) /\
    (returns (fst (get_books w self s)) = true ->
     forall u, linked_episode w self u -> u ∈ fetched) /\
    (refused_delay self = true -> fetched = []).
Proof.
  intros Hw. rewrite get_books_eq. cbn [fst snd].
  destruct (get_books_as_dataframe_io w self (snd (open_log self s)) Hw)
    as (fetched & events & Hsnd & Hrest).
  exists fetched, events. rewrite Hsnd. unfold open_log, close_log in *.
  destruct (truthy_path (log_filepath self)) as [p|]; cbn [snd log_file trace] in *.
  - split; [|done]. f_equal. by rewrite <- !app_assoc.
  - done.
Qed.

(** Without a log path - [None] or the empty string - an invocation opens,
    writes and closes nothing: its only effects are requests and pauses, and
    [self.log_file] is [None] afterwards. *)
Theorem get_books_without_log (w : world) (self : scraper) (s : state) :
  iterates_sets w ->
  truthy_path (log_filepath self) = None ->
  log_file (snd (get_books w self s)) = None /\
  exists events,
    trace (snd (get_books w self s)) = trace s ++ events /\
    Forall (fun e => (exists u, e = Requested u) \/ (exists d, e = Slept d)) events.
Proof.
  intros Hw Hp. destruct (get_books_io w self s Hw) as (fetched & events & -> & _ & _ & Hall & _).
  rewrite Hp in *. split; [done|]. exists events. split; [done|].
  eapply Forall_impl; [exact Hall|]. intros [p|p text|p|u|d]; simpl; try done; eauto.
  by intros [? _].
Qed.

Lemma get_books_without_log_one_book :
  log_file (snd (get_books one_book (init 2021 None (Some EmptyString)) fresh)) = None /\
  exists events,
    trace (snd (get_books one_book (init 2021 None (Some EmptyString)) fresh)) =
      trace fresh ++ events /\
    Forall (fun e => (exists u, e = Requested u) \/ (exists d, e = Slept d)) events.
Proof.
  apply (get_books_without_log one_book (init 2021 None (Some EmptyString)) fresh).
  - apply world_of_iterates_sets.
  - reflexivity.
Defined.

(** With a log path configured, every line an invocation writes goes to that
    file and is made of a timestamp in brackets, a colon, a message and a
    line terminator; the message is [Base page fetched], the text of the
    failed fetch, or [Episode fetched : ] followed by an episode URL. *)
Theorem get_books_log_lines (w : world) (self : scraper) (path : string) (s : state) :
  iterates_sets w ->
  log_filepath self = Some path -> path <> EmptyString ->
  exists events,
    trace (snd (get_books w self s)) = trace s ++ [Opened path] ++ events ++ [Closed path] /\
    forall p text, Wrote p text ∈ events ->
      p = path /\
      exists timestamp_str msg, text = log_line timestamp_str msg /\ log_message msg.
Proof.
  intros Hw Hp Hne. destruct (get_books_io w self s Hw) as (fetched & events & -> & _ & _ & Hall & _).
  rewrite (truthy_path_Some _ _ Hp Hne) in *. exists events. split; [done|].
  intros p text Hin. rewrite Forall_forall in Hall. apply Hall in Hin as [[= ->] ?]. by split.
Qed.

Lemma get_books_log_lines_one_book :
  exists events,
    trace (snd (get_books one_book (init 2021 None (Some "log.txt"%string)) fresh)) =
      trace fresh ++ [Opened "log.txt"] ++ events ++ [Closed "log.txt"] /\
    forall p text, Wrote p text ∈ events ->
      p = "log.txt"%string /\
      exists timestamp_str msg, text = log_line timestamp_str msg /\ log_message msg.
Proof.
  apply (get_books_log_lines one_book (init 2021 None (Some "log.txt"%string)) "log.txt" fresh).
  - apply world_of_iterates_sets.
  - reflexivity.
  - discriminate.
Defined.

(** ** Requests and pauses *)

(** The requests of an invocation: the index page first, then episode pages
    only - each of them linked from the index page, none requested twice -
    and, when the invocation returns, every linked episode page. *)
Theorem get_books_requests (w : world) (year : Z) (req_delay_seconds : option Z)
    (log_path : option string) (s : state) :
  iterates_sets w ->
  exists events fetched,
    trace (snd (get_books w (init year req_delay_seconds log_path) s)) = trace s ++ events /\
    requested events = base_url_year (init year req_delay_seconds log_path) :: fetched /\
    NoDup (requested events) /\
    (forall u, u ∈ fetched -> linked_episode w (init year req_delay_seconds log_path) u) /\
    (returns (fst (get_books w (init year req_delay_seconds log_path) s)) = true ->
     forall u, linked_episode w (init year req_delay_seconds log_path) u -> u ∈ fetched).
Proof.
  intros Hw. set (self := init year req_delay_seconds log_path).
  destruct (get_books_io w self s Hw)
    as (fetched & events & -> & Hreq & _ & _ & Hnd & Hlinked & Hall & _).
  eexists _, fetched. split; [reflexivity|].
  assert (requested (match truthy_path (log_filepath self) with
                     | Some p => Opened p :: events ++ [Closed p]
                     | None => events
                     end) = base_url_year self :: fetched) as ->.
  { destruct (truthy_path _); [|done]. by rewrite (proj1 (requested_bracket _ _)). }
  split; [done|]. split; [|by split]. apply NoDup_cons. split; [|done].
  intros Hin. apply Hlinked in Hin as [He _].
  unfold self in He. by rewrite init_index_not_episode in He.
Qed.

Lemma replicate_pauses (d : Z) (l : list string) :
  flat_map (fun _ => [d]) l = replicate (length l) d.
Proof. induction l as [|u l IH]; simpl; [done | by rewrite IH]. Qed.

Lemma no_pauses (l : list string) : flat_map (fun _ => @nil Z) l = [].
Proof. by induction l. Qed.

(** The pauses of an invocation: none when no delay or a zero delay is
    configured; with a positive delay, one pause of that length for each
    episode page requested, and none for the index page. *)
Theorem get_books_pauses (w : world) (self : scraper) (s : state) :
  iterates_sets w ->
  exists events,
    trace (snd (get_books w self s)) = trace s ++ events /\
    (req_delay_second self = None \/ req_delay_second self = Some 0 -> slept events = []) /\
    (forall d, req_delay_second self = Some d -> 0 < d ->
               slept events = replicate (length (requested events) - 1) d).
Proof.
  intros Hw.
  destruct (get_books_io w self s Hw)
    as (fetched & events & -> & Hreq & Hsl & _ & _ & _ & _ & Href).
  eexists. split; [reflexivity|].
  assert (requested (match truthy_path (log_filepath self) with
                     | Some p => Opened p :: events ++ [Closed p]
                     | None => events
                     end) = base_url_year self :: fetched /\
          slept (match truthy_path (log_filepath self) with
                 | Some p => Opened p :: events ++ [Closed p]
                 | None => events
                 end) = flat_map (fun _ => pause_of self) fetched) as [-> ->].
  { destruct (truthy_path _); [|done].
    by rewrite (proj1 (requested_bracket _ _)), (proj2 (requested_bracket _ _)). }
  unfold pause_of, refused_delay in *. split.
  - intros [-> | ->]; apply no_pauses.
  - intros d Hd Hpos. rewrite Hd in *.
    replace (d =? 0) with false in * by lia. replace (d <? 0) with false in * by lia.
    cbn [orb] in *. destruct (sleep_max <? d).
    + by rewrite Href.
    + simpl. rewrite Nat.sub_0_r. apply replicate_pauses.
Qed.

Lemma get_books_pauses_one_book :
  exists events,
    trace (snd (get_books one_book (init 2021 (Some 3) None) fresh)) = trace fresh ++ events /\
    (req_delay_second (init 2021 (Some 3) None) = None \/
     req_delay_second (init 2021 (Some 3) None) = Some 0 -> slept events = []) /\
    (forall d, req_delay_second (init 2021 (Some 3) None) = Some d -> 0 < d ->
               slept events = replicate (length (requested events) - 1) d).
Proof.
  apply (get_books_pauses one_book (init 2021 (Some 3) None) fresh).
  apply world_of_iterates_sets.
Defined.

Lemma get_books_requests_one_book :
  exists events fetched,
    trace (snd (get_books one_book (init 2021 None None) fresh)) = trace fresh ++ events /\
    requested events = base_url_year (init 2021 None None) :: fetched /\
    NoDup (requested events) /\
    (forall u, u ∈ fetched -> linked_episode one_book (init 2021 None None) u) /\
    (returns (fst (get_books one_book (init 2021 None None) fresh)) = true ->
     forall u, linked_episode one_book (init 2021 None None) u -> u ∈ fetched).
Proof.
  apply (get_books_requests one_book 2021 None None fresh).
  apply world_of_iterates_sets.
Defined.

(** ** A delay that [time.sleep] refuses *)

Lemma episode_hrefs_returns (page : document) :
  all_href page -> exists hrefs, episode_hrefs page = Return hrefs.
Proof.
  induction page as [|a page IH]; intros Hall; [by exists []|].
  apply all_href_cons in Hall as [[h Ha] Hall]. destruct (IH Hall) as [hrefs E].
  simpl. rewrite (href_Return _ _ Ha), E. destruct (is_episode_url h); eauto.
Qed.

Lemma for_each_episode_negative_delay (w : world) (self : scraper) (d : Z) u rest df_list
    (s : state) :
  req_delay_second self = Some d -> d < 0 ->
  for_each_episode w self (u :: rest) df_list s =
  (Raise (if d <? - sleep_max then OverflowError else ValueError), s).
Proof.
  intros Hd Hneg. rewrite for_each_episode_cons. unfold delay, time_sleep. rewrite Hd.
  replace (d =? 0) with false by lia.
  replace (sleep_max <? d) with false by (unfold sleep_max; lia). rewrite orb_false_r.
  destruct (d <? - sleep_max); [done|]. by replace (d <? 0) with true by lia.
Qed.

(** With a negative delay and an index page that links at least one episode
    (all its anchors carrying an [href]), a call of [get_books] whose log
    file, if any, opens raises before it requests any episode page, because
    [time.sleep] refuses the delay: [ValueError] down to -9223372036 seconds,
    [OverflowError] below.  The index page is the only request, and the only
    line logged is [Base page fetched]. *)
Theorem get_books_negative_delay_aborts (fs : string -> option exn) (w : world)
    (self : scraper) (s : state) (d : Z)
    (status : nat) (page : document) (a : anchor) (h : string) :
  iterates_sets w ->
  log_opens fs self ->
  req_delay_second self = Some d -> d < 0 ->
  http_get w (base_url_year self) = Response status page ->
  all_href page ->
  a ∈ page -> attrs a !! "href"%string = Some h -> is_episode_url h = true ->
  fst (get_books_call fs w self s) =
    Raise (if d <? - sleep_max then OverflowError else ValueError) /\
  match truthy_path (log_filepath self) with
  | Some path =>
      exists timestamp_str,
        trace (snd (get_books_call fs w self s)) =
        trace s ++ [Opened path; Requested (base_url_year self);
                    Wrote path (log_line timestamp_str "Base page fetched");
                    Closed path]
  | None =>
      trace (snd (get_books_call fs w self s)) = trace s ++ [Requested (base_url_year self)]
  end.
Proof.
  intros Hw Hfs Hd Hneg H Hall Ha Hh He. rewrite (get_books_call_opens _ _ _ _ Hfs).
  rewrite get_books_eq, get_books_as_dataframe_eq.
  rewrite (get_page_soup_response _ _ _ _ _ H), write_log_eq.
  destruct (episode_hrefs_returns _ Hall) as [hrefs Eh].
  unfold collect_books, bind, lift. rewrite Eh.
  assert (h ∈ set_iter w (list_to_set hrefs)) as Hin.
  { apply set_iter_elem; [done|]. apply (episode_hrefs_Return _ _ Eh). eauto. }
  destruct (set_iter w (list_to_set hrefs)) as [|u rest]; [by apply elem_of_nil in Hin|].
  rewrite (for_each_episode_negative_delay _ _ _ _ _ _ _ Hd Hneg).
  unfold open_log. destruct (truthy_path (log_filepath self)) as [path|]; simpl.
  - split; [done|]. eexists. rewrite <- !app_assoc. reflexivity.
  - done.
Qed.

Lemma get_books_negative_delay_one_book :
  fst (get_books_call every_path_opens one_book (init 2021 (Some (-1)) None) fresh) =
    Raise ValueError /\
  trace (snd (get_books_call every_path_opens one_book (init 2021 (Some (-1)) None) fresh)) =
    trace fresh ++ [Requested (base_url_year (init 2021 (Some (-1)) None))].
Proof.
  apply (get_books_negative_delay_aborts every_path_opens one_book
           (init 2021 (Some (-1)) None) fresh (-1) 200
           [link episode_206 "Episode 206"] (link episode_206 "Episode 206") episode_206).
  - apply world_of_iterates_sets.
  - intros path _. reflexivity.
  - reflexivity.
  - reflexivity.
  - reflexivity.
  - intros a Ha. apply list_elem_of_singleton in Ha as ->. by eexists.
  - left.
  - reflexivity.
  - reflexivity.
Defined.

(** ** Results and the log *)

Lemma stateless_bind {A B : Type} (m : M A) (f : A -> M B) :
  stateless m -> (forall a, stateless (f a)) -> stateless (bind m f).
Proof.
  intros Hm Hf s s'. unfold bind. specialize (Hm s s').
  destruct (m s) as [[a|e] s1], (m s') as [[a'|e'] s1']; simpl in Hm; try done.
  - injection Hm as <-. apply Hf.
  - by injection Hm as <-.
Qed.

Lemma stateless_ret {A : Type} (a : A) : stateless (ret a).
Proof. done. Qed.

Lemma stateless_raise {A : Type} (e : exn) : stateless (raise (A := A) e).
Proof. done. Qed.

Lemma stateless_lift {A : Type} (o : outcome A) : stateless (lift o).
Proof. done. Qed.

Lemma stateless_write_log (w : world) (msg : string) : stateless (write_log w msg).
Proof. intros s s'. by rewrite !write_log_eq. Qed.

Lemma stateless_get_page_soup (w : world) (url : string) : stateless (get_page_soup w url).
Proof.
  intros s s'. rewrite !get_page_soup_cases.
  destruct (http_get w url) as [status page | e]; [done|]. by destruct e.
Qed.

Lemma stateless_delay (self : scraper) : stateless (delay self).
Proof.
  intros s s'. unfold delay, time_sleep. destruct (req_delay_second self) as [d|]; [|done].
  destruct (d =? 0); [done|]. destruct (_ || _); [done|]. by destruct (d <? 0).
Qed.

Lemma stateless_scrape_episode (w : world) (u : string) df_list :
  stateless (scrape_episode w u df_list).
Proof.
  unfold scrape_episode. apply stateless_bind; [apply stateless_get_page_soup|].
  intros [page|]; [|apply stateless_ret].
  apply stateless_bind; [apply stateless_write_log|]. intros _.
  apply stateless_bind; [apply stateless_lift|]. intros books.
  destruct (length books =? 0)%nat; [apply stateless_ret|].
  apply stateless_bind; [apply stateless_lift|]. intros [[n d]|]; [|apply stateless_raise].
  apply stateless_bind; [apply stateless_lift | intros; apply stateless_ret].
Qed.

Lemma stateless_for_each_episode (w : world) (self : scraper) ep_urls df_list :
  stateless (for_each_episode w self ep_urls df_list).
Proof.
  revert df_list. induction ep_urls as [|u rest IH]; intros df_list; simpl.
  - apply stateless_ret.
  - apply stateless_bind; [|done].
    apply stateless_bind; [apply stateless_delay | intros; apply stateless_scrape_episode].
Qed.

Lemma for_each_episode_same_delay (w : world) (self self' : scraper) ep_urls df_list
    (s : state) :
  req_delay_second self = req_delay_second self' ->
  for_each_episode w self ep_urls df_list s = for_each_episode w self' ep_urls df_list s.
Proof.
  intros Hd. revert df_list s. induction ep_urls as [|u rest IH]; intros df_list s; [done|].
  rewrite !for_each_episode_cons. unfold delay. rewrite Hd.
  destruct (match req_delay_second self' with
            | Some seconds => if seconds =? 0 then ret tt else time_sleep seconds
            | None => ret tt
            end s) as [[[]|e] s1]; [|done].
  destruct (scrape_episode w u df_list s1) as [[df1|e] s2]; [apply IH | done].
Qed.

Lemma stateless_collect_books (w : world) (self : scraper) base_page :
  stateless (collect_books w self base_page).
Proof.
  destruct base_page as [page|]; [|apply stateless_raise]. unfold collect_books.
  apply stateless_bind; [apply stateless_lift|]. intros hrefs.
  apply stateless_bind; [apply stateless_for_each_episode|]. intros df_list.
  destruct (length df_list =? 0)%nat; apply stateless_ret.
Qed.

Lemma stateless_get_books_as_dataframe (w : world) (self : scraper) :
  stateless (get_books_as_dataframe w self).
Proof.
  unfold get_books_as_dataframe. apply stateless_bind; [apply stateless_get_page_soup|].
  intros base_page. apply stateless_bind; [apply stateless_write_log|]. intros _.
  apply stateless_collect_books.
Qed.

Lemma get_books_same_result (w : world) (self self' : scraper) (s s' : state) :
  base_url_year self = base_url_year self' ->
  req_delay_second self = req_delay_second self' ->
  fst (get_books w self s) = fst (get_books w self' s').
Proof.
  intros Hb Hd. rewrite !get_books_eq. cbn [fst].
  rewrite (stateless_get_books_as_dataframe w self _ (snd (open_log self' s'))).
  rewrite !get_books_as_dataframe_eq, Hb.
  destruct (get_page_soup w (base_url_year self') _) as [[base_page|e] s1]; [|done].
  destruct base_page as [page|]; [|done]. unfold collect_books, bind, lift.
  destruct (episode_hrefs page) as [hrefs|e]; [|done].
  by rewrite (for_each_episode_same_delay w self self' _ _ _ Hd).
Qed.

(** Among the calls whose log file, if any, opens, what [get_books] returns
    or raises depends on the index URL and on the delay only: not on the log
    path, not on whether a log is kept at all, and not on what earlier calls
    did. *)
Theorem get_books_result_independent (fs fs' : string -> option exn) (w : world)
    (self self' : scraper) (s s' : state) :
  log_opens fs self -> log_opens fs' self' ->
  base_url_year self = base_url_year self' ->
  req_delay_second self = req_delay_second self' ->
  fst (get_books_call fs w self s) = fst (get_books_call fs' w self' s').
Proof.
  intros Hfs Hfs' Hb Hd. rewrite !get_books_call_opens by done.
  by apply get_books_same_result.
Qed.

Lemma get_books_result_independent_one_book :
  fst (get_books_call every_path_opens one_book (init 2021 None None) fresh) =
  fst (get_books_call no_such_dir one_book (init 2021 None (Some "log.txt"%string))
         (logging "old.txt")).
Proof.
  apply (get_books_result_independent every_path_opens no_such_dir one_book
           (init 2021 None None) (init 2021 None (Some "log.txt"%string)) fresh
           (logging "old.txt")).
  - intros path _. reflexivity.
  - intros path [= <-]. reflexivity.
  - reflexivity.
  - reflexivity.
Defined.
